(** * unexport: the export-safety analysis and the rename engine

    A shallow embedding of the unexport command (package main:
    [main], [runMain], [rewriteFile], [filterObjects], [hasUse],
    [exportedObjects], [findExportedObjects], [loadProgram], [plural]).

    The command loads a target package, asks the import graph which
    packages may refer to it, loads all of those, selects the exported
    objects of the target that it regards as unused, lower-cases every
    identifier bound to one of them in the loaded syntax trees and
    prints the touched files back to disk.

    The libraries the command calls (go/loader, importgraph, go/format,
    io/ioutil, strings, go/types) are not part of the program: they are
    the fields of a [Toolkit] record and every definition below takes
    one.  Go maps are association lists in one iteration order where
    the program ranges over them, and [gset]s where it only inserts and
    tests membership. *)

From Stdlib Require Import Ascii.
From stdpp Require Import gmap strings list fin_maps fin_sets pretty.

Set Default Proof Using "Type".

(** ** Data model *)

(** [*types.Package]: the address stands for pointer identity. *)
Record Package := mkPackage {
  pkg_addr : nat;
  pkg_Path : string
}.

(** [types.Object]: compared with [==] on the interface value, that is
    by address; [Name()] and [Pkg()] are its accessors. *)
Record Object := mkObject {
  obj_addr : nat;
  obj_Name : string;
  obj_Pkg : Package
}.

(** [*ast.Ident].  The mutable [Name] field lives in a heap indexed by
    [id_addr] (see [Names]); [id_Pos] is the result of [id.Pos()]. *)
Record Ident := mkIdent {
  id_addr : nat;
  id_Pos : nat
}.

(** [*token.File]: a file name and the range of positions it covers. *)
Record TokenFile := mkTokenFile {
  tf_Name : string;
  tf_Base : nat;
  tf_Size : nat
}.

(** [*ast.File]: [f_Pos] is [f.Pos()], the position of the package
    clause; the syntax tree is kept as the identifiers it holds. *)
Record AstFile := mkAstFile {
  f_Pos : nat;
  f_Idents : list Ident
}.

(** [*loader.PackageInfo] with the embedded [types.Info].  A definition
    may be bound to the nil object (package clauses, blank names). *)
Record PackageInfo := mkPackageInfo {
  Pkg : Package;
  Files : list AstFile;
  Defs : list (Ident * option Object);
  Uses : list (Ident * Object)
}.

(** [*loader.Program].  [Names] is the heap of the [Name] fields of the
    identifiers of all the syntax trees of the program. *)
Record Program := mkProgram {
  Fset : list TokenFile;
  Imported : list (string * PackageInfo);
  AllPackages : list (Package * PackageInfo);
  Names : gmap nat string
}.

(** [config], without the build context (it belongs to the toolkit). *)
Record config := mkConfig {
  importPath : string;
  identifiers : list string;
  dryRun : bool;
  verbose : bool
}.

Global Instance Package_eq_dec : EqDecision Package.
Proof. solve_decision. Defined.

Global Instance Object_eq_dec : EqDecision Object.
Proof. solve_decision. Defined.

Global Instance Ident_eq_dec : EqDecision Ident.
Proof. solve_decision. Defined.

Global Instance TokenFile_eq_dec : EqDecision TokenFile.
Proof. solve_decision. Defined.

Global Program Instance Package_countable : Countable Package :=
  inj_countable' (λ p, (pkg_addr p, pkg_Path p))
                 (λ t, mkPackage t.1 t.2) _.
Next Obligation. by intros []. Qed.

Global Program Instance Object_countable : Countable Object :=
  inj_countable' (λ o, (obj_addr o, obj_Name o, obj_Pkg o))
                 (λ t, mkObject t.1.1 t.1.2 t.2) _.
Next Obligation. by intros []. Qed.

Global Program Instance TokenFile_countable : Countable TokenFile :=
  inj_countable' (λ f, (tf_Name f, tf_Base f, tf_Size f))
                 (λ t, mkTokenFile t.1.1 t.1.2 t.2) _.
Next Obligation. by intros []. Qed.

(** The file system: path to content. *)
Abbreviation FS := (gmap string string).

(** ** Observable behaviour *)

(** What a run prints and which library calls with an effect it makes,
    in order.  Objects and package sets are kept as values, since their
    rendering belongs to the libraries. *)
Inductive event :=
  | ScanError (path err : string)       (* stderr: Package %q: %s. *)
  | ScanHeader                          (* stderr: While scanning Go workspace: *)
  | PossiblePackages (pkgs : list string)
  | ExportedIdents (objs : list Object)
  | SafeIdents (objs : list Object)
  | Rewrite (filename : string) (err : option string) (* a call of rewriteFile *)
  | LogError (err : string)             (* log.Println(err) *)
  | LogLine (line : string)             (* log.Printf of the summary *)
  | ErrorLine (err : string).           (* stderr: unexport: %s *)

Record World := mkWorld {
  w_fs : FS;
  w_out : list event
}.

Definition emit (e : event) (w : World) : World :=
  mkWorld (w_fs w) (w_out w ++ [e]).

(** The error values [runMain] returns, one per return site: the one
    made by [errors.New], the one a load hands back, and the one made
    by [fmt.Errorf] after the persistence loop. *)
Inductive error :=
  | ErrImportPath
  | ErrLoad (msg : string)
  | ErrRewrite (nerrs : nat).

(** How a call ends: it returns nil, it returns an error, or the Go
    runtime panics (a nil pointer is dereferenced). *)
Inductive outcome :=
  | Success
  | Failure (err : error)
  | Panicked.

Global Instance error_eq_dec : EqDecision error.
Proof. solve_decision. Defined.

Global Instance outcome_eq_dec : EqDecision outcome.
Proof. solve_decision. Defined.

(** ** The libraries *)

Record Toolkit := mkToolkit {
  (** [conf.ImportWithTests(pkg)] for every key, then [conf.Load()]. *)
  loader_Load : gset string → Program + string;
  (** the third result of [importgraph.Build]. *)
  importgraph_errors : list (string * string);
  (** [rev.Search(path)] on the reverse graph of [importgraph.Build]. *)
  rev_Search : string → gset string;
  (** [obj.Exported()]. *)
  Exported : Object → bool;
  (** [strings.ToLower]. *)
  strings_ToLower : string → string;
  (** [format.Node] into a buffer, given the current identifier names. *)
  format_Node : list TokenFile → gmap nat string → AstFile → string + string;
  (** [ioutil.WriteFile(filename, data, 0644)]. *)
  ioutil_WriteFile : FS → string → string → FS * option string
}.

(** [fset.File(p)]: the file whose range holds [p], nil when there is
    none. *)
Definition Fset_File (fset : list TokenFile) (p : nat) : option TokenFile :=
  find (λ f, bool_decide (tf_Base f ≤ p ≤ tf_Base f + tf_Size f)) fset.

Section unexport.
Variable tk : Toolkit.

(** ** The analysis *)

(** [hasUse]: some use of the package is bound to [obj]. *)
Definition hasUse (info : PackageInfo) (obj : Object) : bool :=
  existsb (λ u, bool_decide (u.2 = obj)) (Uses info).

(** [filterObjects]: the exported objects without a use in [info]. *)
Definition filterObjects (info : PackageInfo)
    (exported : list (Ident * Object)) : list (Ident * Object) :=
  filter (λ e, hasUse info e.2 = false) exported.

(** [exportedObjects]: the definitions of [info] bound to a non-nil
    exported object. *)
Definition exportedObjects (info : PackageInfo) : list (Ident * Object) :=
  omap (λ d, match d.2 with
             | None => None
             | Some obj => if Exported tk obj then Some (d.1, obj) else None
             end) (Defs info).

(** [findExportedObjects].  The loop stops at the first package whose
    path is [path]; the map lookup then yields the info stored under
    that key.  Without a match [pkgObj] stays nil, the lookup yields
    the nil info and [exportedObjects] dereferences it: [None]. *)
Definition findExportedObjects (prog : Program) (path : string)
    : option (list (Ident * Object)) :=
  match find (λ e, bool_decide (pkg_Path e.1 = path)) (AllPackages prog) with
  | Some e => Some (exportedObjects e.2)
  | None => None
  end.

(** [runMain], first loop: the packages that may be affected. *)
Definition possiblePackages (objs : list (Ident * Object)) : gset string :=
  foldl (λ acc e, acc ∪ rev_Search tk (pkg_Path (obj_Pkg e.2))) ∅ objs.

(** [runMain], the loop filling [objsToUpdate]: for every imported
    package, every object [filterObjects] returns for it is added. *)
Definition objsToUpdate (gprog : Program) (objects : list (Ident * Object))
    : gset Object :=
  foldl (λ acc e,
           foldl (λ acc' s, {[ s.2 ]} ∪ acc') acc (filterObjects e.2 objects))
        ∅ (Imported gprog).

(** ** The rename *)

(** The variables of the second loop of [runMain].  [nidents] is a Go
    [int]; it counts identifiers held in memory and is kept as a
    natural number. *)
Record RenameState := mkRenameState {
  nidents : nat;
  names : gmap nat string;
  filesToUpdate : gset (option TokenFile)
}.

(** The body shared by the two inner loops: [objsToUpdate[obj]] is
    false for the nil object, which is never a key of the set. *)
Definition renameSite (fset : list TokenFile) (plan : gset Object)
    (st : RenameState) (id : Ident) (obj : option Object) : RenameState :=
  match obj with
  | Some o =>
      if bool_decide (o ∈ plan) then
        mkRenameState (S (nidents st))
          (<[id_addr id := strings_ToLower tk (obj_Name o)]> (names st))
          ({[ Fset_File fset (id_Pos id) ]} ∪ filesToUpdate st)
      else st
  | None => st
  end.

Definition renamePackage (fset : list TokenFile) (plan : gset Object)
    (st : RenameState) (info : PackageInfo) : RenameState :=
  let st1 := foldl (λ acc d, renameSite fset plan acc d.1 d.2) st (Defs info) in
  foldl (λ acc u, renameSite fset plan acc u.1 (Some u.2)) st1 (Uses info).

(** [runMain], the loop over [globalProg.Imported] that mutates the
    syntax trees. *)
Definition renameIdents (gprog : Program) (plan : gset Object) : RenameState :=
  foldl (λ acc e, renamePackage (Fset gprog) plan acc e.2)
        (mkRenameState 0 (Names gprog) ∅) (Imported gprog).

(** ** Persistence *)

Definition plural (n : nat) : string :=
  if bool_decide (n ≠ 1) then "s" else "".

(** [rewriteFile]: pretty-print into a buffer, then write the file. *)
Definition rewriteFile (fset : list TokenFile) (nm : gmap nat string)
    (f : AstFile) (filename : string) (fs : FS) : FS * option string :=
  match format_Node tk fset nm f with
  | inr e => (fs, Some ("failed to pretty-print syntax tree: " +:+ e))
  | inl buf => ioutil_WriteFile tk fs filename buf
  end.

(** The variables of the third loop of [runMain] and the world. *)
Record PersistState := mkPersistState {
  p_world : World;
  p_nerrs : nat;
  p_npkgs : nat
}.

(** The loop over [info.Files].  The result flag is [None] when
    [tokenFile.Name()] is called on the nil file, else the value of
    [first] after the loop. *)
Fixpoint persistFiles (fset : list TokenFile) (nm : gmap nat string)
    (touched : gset (option TokenFile)) (files : list AstFile)
    (first : bool) (st : PersistState) : PersistState * option bool :=
  match files with
  | [] => (st, Some first)
  | f :: rest =>
      let tokenFile := Fset_File fset (f_Pos f) in
      if bool_decide (tokenFile ∈ touched) then
        let st1 := if first
                   then mkPersistState (p_world st) (p_nerrs st) (S (p_npkgs st))
                   else st in
        match tokenFile with
        | None => (st1, None)
        | Some tf =>
            let r := rewriteFile fset nm f (tf_Name tf) (w_fs (p_world st1)) in
            let w1 := emit (Rewrite (tf_Name tf) r.2)
                           (mkWorld r.1 (w_out (p_world st1))) in
            let st2 := match r.2 with
                       | Some e => mkPersistState (emit (LogError e) w1)
                                     (S (p_nerrs st1)) (p_npkgs st1)
                       | None => mkPersistState w1 (p_nerrs st1) (p_npkgs st1)
                       end in
            persistFiles fset nm touched rest false st2
        end
      else persistFiles fset nm touched rest first st
  end.

(** The loop over [globalProg.Imported]; [false] when it panicked. *)
Fixpoint persistPackages (fset : list TokenFile) (nm : gmap nat string)
    (touched : gset (option TokenFile)) (infos : list (string * PackageInfo))
    (st : PersistState) : PersistState * bool :=
  match infos with
  | [] => (st, true)
  | e :: rest =>
      match persistFiles fset nm touched (Files e.2) true st with
      | (st1, Some _) => persistPackages fset nm touched rest st1
      | (st1, None) => (st1, false)
      end
  end.

(** The text of the summary line. *)
Definition summary (n nfiles npkgs : nat) : string :=
  "Unexported " +:+ pretty n +:+ " occurrence" +:+ plural n +:+
  " in " +:+ pretty nfiles +:+ " file" +:+ plural nfiles +:+
  " in " +:+ pretty npkgs +:+ " package" +:+ plural npkgs +:+ ".".

(** [err.Error()]. *)
Definition errorText (err : error) : string :=
  match err with
  | ErrImportPath => "import path of the package must be given"
  | ErrLoad msg => msg
  | ErrRewrite nerrs =>
      "failed to rewrite " +:+ pretty nerrs +:+ " file" +:+ plural nerrs
  end.

(** ** The command *)

(** [loadProgram]. *)
Definition loadProgram (pkgs : gset string) : Program + string :=
  loader_Load tk pkgs.

Definition reportScanErrors (w : World) : World :=
  match importgraph_errors tk with
  | [] => w
  | errs => foldl (λ acc e, emit (ScanError e.1 e.2) acc) (emit ScanHeader w) errs
  end.

Definition whenVerbose (conf : config) (e : event) (w : World) : World :=
  if verbose conf then emit e w else w.

(** [runMain] from the declaration of [objsToUpdate] to its end: the
    selection, the rename, the persistence and the report, on the
    program of the second load. *)
Definition unexportLoaded (conf : config) (globalProg : Program)
    (w : World) : World * outcome :=
  match findExportedObjects globalProg (importPath conf) with
  | None => (w, Panicked)
  | Some objects =>
      let w1 := whenVerbose conf (ExportedIdents objects.*2) w in
      let plan := objsToUpdate globalProg objects in
      let w2 := whenVerbose conf (SafeIdents (elements plan)) w1 in
      let rs := renameIdents globalProg plan in
      match persistPackages (Fset globalProg) (names rs)
              (filesToUpdate rs) (Imported globalProg)
              (mkPersistState w2 0 0) with
      | (ps, false) => (p_world ps, Panicked)
      | (ps, true) =>
          let w3 := emit (LogLine (summary (nidents rs)
                            (size (filesToUpdate rs)) (p_npkgs ps)))
                         (p_world ps) in
          if bool_decide (0 < p_nerrs ps)
          then (w3, Failure (ErrRewrite (p_nerrs ps)))
          else (w3, Success)
      end
  end.

(** [runMain].  Neither [conf.identifiers] nor [conf.dryRun] is read
    anywhere in the function. *)
Definition runMain (conf : config) (w : World) : World * outcome :=
  if bool_decide (importPath conf = "") then
    (w, Failure ErrImportPath)
  else
    let path := importPath conf in
    match loadProgram {[ path ]} with
    | inr err => (w, Failure (ErrLoad err))
    | inl prog =>
        let w1 := reportScanErrors w in
        match findExportedObjects prog path with
        | None => (w1, Panicked)
        | Some objs =>
            let possible := possiblePackages objs in
            let w2 := whenVerbose conf (PossiblePackages (elements possible)) w1 in
            match loadProgram possible with
            | inr err => (w2, Failure (ErrLoad err))
            | inl globalProg => unexportLoaded conf globalProg w2
            end
        end
    end.

(** The command-line flags read by [main]. *)
Record Flags := mkFlags {
  flagPackage : string;
  flagIdentifier : string;
  flagDryRun : bool;
  flagVerbose : bool
}.

(** [strings.Split(s, ",")]. *)
Fixpoint strings_Split_comma (s : string) : list string :=
  match s with
  | EmptyString => [EmptyString]
  | String c rest =>
      if Ascii.eqb c ","%char then EmptyString :: strings_Split_comma rest
      else match strings_Split_comma rest with
           | [] => [String c EmptyString]
           | x :: xs => String c x :: xs
           end
  end.

Definition configOf (fl : Flags) : config :=
  mkConfig (flagPackage fl) (strings_Split_comma (flagIdentifier fl))
           (flagDryRun fl) (flagVerbose fl).

(** [main]: the exit status of the process (2 is the status of a Go
    program that panicked). *)
Definition main (fl : Flags) (w : World) : World * nat :=
  match runMain (configOf fl) w with
  | (w', Success) => (w', 0)
  | (w', Failure err) => (emit (ErrorLine (errorText err)) w', 1)
  | (w', Panicked) => (w', 2)
  end.

End unexport.

(** ** A workspace to run the command on

    A small stand-in for the libraries, so that the definitions above
    can be evaluated: identifiers are ASCII, a load returns the
    packages asked for, the printer writes the identifier names of the
    file separated by blanks and a write fails on the read-only
    paths. *)
Module Workspace.

Definition isUpper (c : ascii) : bool :=
  (65 <=? nat_of_ascii c) && (nat_of_ascii c <=? 90).

Definition toLower (c : ascii) : ascii :=
  if isUpper c then ascii_of_nat (nat_of_ascii c + 32) else c.

Fixpoint ToLower (s : string) : string :=
  match s with
  | EmptyString => EmptyString
  | String c rest => String (toLower c) (ToLower rest)
  end.

Definition IsExported (name : string) : bool :=
  match name with
  | EmptyString => false
  | String c _ => isUpper c
  end.

Record t := mk {
  fset : list TokenFile;
  infos : list PackageInfo;
  idents : gmap nat string;
  importers : string → gset string;
  readonly : gset string;
  (** whether a load of no package at all is an error *)
  strict : bool
}.

(** The program a load of [pkgs] returns. *)
Definition program (ws : t) (pkgs : gset string) : Program :=
  let found := filter (λ i, pkg_Path (Pkg i) ∈ pkgs) (infos ws) in
  mkProgram (fset ws) ((λ i, (pkg_Path (Pkg i), i)) <$> found)
            ((λ i, (Pkg i, i)) <$> found) (idents ws).

Definition Load (ws : t) (pkgs : gset string) : Program + string :=
  if strict ws && bool_decide (pkgs = ∅) then
    inr "no initial packages were loaded"
  else if bool_decide (pkgs ⊆ list_to_set ((λ e, e.1) <$> Imported (program ws pkgs))) then
    inl (program ws pkgs)
  else inr "cannot find package".

Definition Node (fs : list TokenFile) (nm : gmap nat string) (f : AstFile)
    : string + string :=
  inl (String.concat " " ((λ id, default "_" (nm !! id_addr id)) <$> f_Idents f)).

Definition WriteFile (ro : gset string) (fs : FS) (filename data : string)
    : FS * option string :=
  if bool_decide (filename ∈ ro)
  then (fs, Some ("open " +:+ filename +:+ ": permission denied"))
  else (<[filename := data]> fs, None).

Definition toolkit (ws : t) : Toolkit :=
  mkToolkit (Load ws) [] (importers ws)
            (λ o, IsExported (obj_Name o)) ToLower Node (WriteFile (readonly ws)).

(** Packages [a] (the target) and [b]. *)
Definition pkgA := mkPackage 1 "a".
Definition pkgB := mkPackage 2 "b".
Definition Foo := mkObject 10 "Foo" pkgA.
Definition Bar := mkObject 11 "Bar" pkgA.
Definition helper := mkObject 12 "helper" pkgA.
Definition Run := mkObject 13 "Run" pkgB.

Definition a_go := mkTokenFile "a.go" 1 50.
Definition b_go := mkTokenFile "b.go" 52 50.

Definition idPkgA := mkIdent 100 9.
Definition idFoo := mkIdent 101 20.
Definition idBar := mkIdent 102 30.
Definition idHelper := mkIdent 103 35.
Definition idFooInA := mkIdent 104 40.
Definition idPkgB := mkIdent 200 60.
Definition idRun := mkIdent 201 70.
Definition idFooInB := mkIdent 202 80.

Definition allNames : gmap nat string :=
  list_to_map [(100, "a"); (101, "Foo"); (102, "Bar"); (103, "helper");
               (104, "Foo"); (200, "b"); (201, "Run"); (202, "Foo")].

Definition onlyA (x : string) : gset string := {[ "a" ]}.
Definition aAndB (x : string) : gset string := {[ "a"; "b" ]}.

(** [a] defines [Foo] and does not use it; [b] imports [a] and uses
    [a.Foo]. *)
Definition externalUse : t :=
  mk [a_go; b_go]
     [ mkPackageInfo pkgA [mkAstFile 1 [idPkgA; idFoo]]
         [(idPkgA, None); (idFoo, Some Foo)] [];
       mkPackageInfo pkgB [mkAstFile 52 [idPkgB; idRun; idFooInB]]
         [(idPkgB, None); (idRun, Some Run)] [(idFooInB, Foo)] ]
     allNames aAndB ∅ true.

(** [a] alone: it defines [Foo] and uses it itself. *)
Definition internalUse : t :=
  mk [a_go]
     [ mkPackageInfo pkgA [mkAstFile 1 [idPkgA; idFoo; idFooInA]]
         [(idPkgA, None); (idFoo, Some Foo)] [(idFooInA, Foo)] ]
     allNames onlyA ∅ true.

(** [a] alone: it defines [Foo], [Bar] and [helper], none is used. *)
Definition unused (ro : gset string) : t :=
  mk [a_go]
     [ mkPackageInfo pkgA [mkAstFile 1 [idPkgA; idFoo; idBar; idHelper]]
         [(idPkgA, None); (idFoo, Some Foo); (idBar, Some Bar);
          (idHelper, Some helper)] [] ]
     allNames onlyA ro true.

(** [a] alone, with nothing exported. *)
Definition noExports (strict : bool) : t :=
  mk [a_go]
     [ mkPackageInfo pkgA [mkAstFile 1 [idPkgA; idHelper]]
         [(idPkgA, None); (idHelper, Some helper)] [] ]
     allNames onlyA ∅ strict.

(** The disk before the run: every file holds its printed tree. *)
Definition disk (ws : t) : FS :=
  list_to_map (infos ws ≫= λ i,
    omap (λ f, match Fset_File (fset ws) (f_Pos f), Node (fset ws) (idents ws) f with
               | Some tf, inl text => Some (tf_Name tf, text)
               | _, _ => None
               end) (Files i)).

Definition start (ws : t) : World := mkWorld (disk ws) [].

Definition flagsFor (ids : string) (dry : bool) : Flags :=
  mkFlags "a" ids dry false.

End Workspace.

(** ** Notions the statements are written in *)

Section notions.
Variable tk : Toolkit.

(** The definition and use sites of the packages the rename ranges
    over, in the order of the loop. *)
Definition sites (gprog : Program) : list (Ident * option Object) :=
  Imported gprog ≫= λ e, Defs e.2 ++ ((λ u, (u.1, Some u.2)) <$> Uses e.2).

(** The site is bound to an object of the plan. *)
Definition planned (plan : gset Object) (s : Ident * option Object) : Prop :=
  ∃ o, s.2 = Some o ∧ o ∈ plan.

Global Instance planned_dec plan s : Decision (planned plan s).
Proof.
  destruct s as [id [o|]]; unfold planned; simpl.
  - destruct (decide (o ∈ plan)); [left; eauto | right; intros (? & [= <-] & ?); done].
  - right; intros (? & [=] & ?).
Defined.

(** The rename plan of a run that loaded [gprog]: the keys of
    [objsToUpdate]. *)
Definition renamePlan (gprog : Program) (path : string) : gset Object :=
  match findExportedObjects tk gprog path with
  | Some objects => objsToUpdate gprog objects
  | None => ∅
  end.

(** The heap of identifier names after the rename loop. *)
Definition renamedNames (gprog : Program) (path : string) : gmap nat string :=
  names (renameIdents tk gprog (renamePlan gprog path)).

(** The run gets through both loads: the set of possible packages
    and the program of the second load. *)
Definition fullLoad (conf : config) : option (gset string * Program) :=
  if bool_decide (importPath conf = "") then None
  else match loadProgram tk {[ importPath conf ]} with
       | inr _ => None
       | inl prog =>
           match findExportedObjects tk prog (importPath conf) with
           | None => None
           | Some objs =>
               match loadProgram tk (possiblePackages tk objs) with
               | inr _ => None
               | inl gprog => Some (possiblePackages tk objs, gprog)
               end
           end
       end.

(** The calls of [rewriteFile] in a trace, with their results. *)
Definition rewrites (out : list event) : list (string * option string) :=
  omap (λ e, match e with Rewrite f r => Some (f, r) | _ => None end) out.

(** What the persistence loop prints for a sequence of calls: every
    failed call is followed by the log line of its error. *)
Definition persistEvents (rs : list (string * option string)) : list event :=
  rs ≫= λ r, Rewrite r.1 r.2 :: match r.2 with
                                | Some e => [LogError e]
                                | None => []
                                end.

Definition failures (rs : list (string * option string)) : nat :=
  length (filter (λ r, is_Some r.2) rs).

(** The names of the touched files among [files], in order. *)
Definition touchedFiles (fset : list TokenFile)
    (touched : gset (option TokenFile)) (files : list AstFile) : list string :=
  omap (λ f, match Fset_File fset (f_Pos f) with
             | Some tf => if bool_decide (Some tf ∈ touched)
                          then Some (tf_Name tf) else None
             | None => None
             end) files.

Definition touchedNames (gprog : Program)
    (touched : gset (option TokenFile)) : list string :=
  Imported gprog ≫= λ e, touchedFiles (Fset gprog) touched (Files e.2).

(** The names of all the files of the imported packages. *)
Definition fileNames (gprog : Program) : list string :=
  Imported gprog ≫= λ e,
    omap (λ f, tf_Name <$> Fset_File (Fset gprog) (f_Pos f)) (Files e.2).

(** The loop body of the rename on a site. *)
Definition renameStep (fset : list TokenFile) (plan : gset Object)
    (acc : RenameState) (s : Ident * option Object) : RenameState :=
  renameSite tk fset plan acc s.1 s.2.

(** The world when the second load returns: the scan errors and, in
    verbose mode, the possible packages have been printed. *)
Definition preamble (conf : config) (possible : gset string) (w : World) : World :=
  whenVerbose conf (PossiblePackages (elements possible)) (reportScanErrors tk w).

(** The definition sites and the use sites on their own. *)
Definition defSites (gprog : Program) : list (Ident * option Object) :=
  Imported gprog ≫= λ e, Defs e.2.

Definition useSites (gprog : Program) : list (Ident * option Object) :=
  Imported gprog ≫= λ e, (λ u, (u.1, Some u.2)) <$> Uses e.2.

(** The position of every file of the imported packages lies in a file
    of the file set, as it does in a program the loader parsed. *)
Definition filesResolve (gprog : Program) : Prop :=
  Forall (λ e, Forall (λ f, is_Some (Fset_File (Fset gprog) (f_Pos f))) (Files e.2))
         (Imported gprog).

(** Sites that share an identifier are bound to objects of one name. *)
Definition consistent (gprog : Program) : Prop :=
  ∀ s s' o o', s ∈ sites gprog → s' ∈ sites gprog →
    id_addr s.1 = id_addr s'.1 → s.2 = Some o → s'.2 = Some o' →
    obj_Name o = obj_Name o'.

End notions.

(** ** The earlier command

    The same file holds an earlier [main] and [runMain]: the analysis
    and the rename without the persistence, the diagnostics printed
    unconditionally and the path taken as an argument.  The helpers
    ([filterObjects], [hasUse], [exportedObjects],
    [findExportedObjects], [loadProgram]) are the ones above. *)
Module Earlier.

(** [runMain(path)].  The loop that mutates the syntax trees runs and
    its counters are dropped when the function returns nil. *)
Definition runMain (tk : Toolkit) (path : string) (w : World) : World * outcome :=
  match loadProgram tk {[ path ]} with
  | inr err => (w, Failure (ErrLoad err))
  | inl prog =>
      let w1 := reportScanErrors tk w in
      match findExportedObjects tk prog path with
      | None => (w1, Panicked)
      | Some objs =>
          let possible := possiblePackages tk objs in
          let w2 := emit (PossiblePackages (elements possible)) w1 in
          match loadProgram tk possible with
          | inr err => (w2, Failure (ErrLoad err))
          | inl globalProg =>
              match findExportedObjects tk globalProg path with
              | None => (w2, Panicked)
              | Some objects =>
                  let w3 := emit (ExportedIdents objects.*2) w2 in
                  let plan := objsToUpdate globalProg objects in
                  let w4 := emit (SafeIdents (elements plan)) w3 in
                  let rs := renameIdents tk globalProg plan in
                  (w4, Success)
              end
          end
      end
  end.

End Earlier.

(** ** A second workspace

    [a] defines [Foo] and uses it itself; [b] imports [a], defines
    [Run] and has no use of [Foo]. *)
Module Scenario.

Definition importerWithoutUse (ro : gset string) : Workspace.t :=
  Workspace.mk [Workspace.a_go; Workspace.b_go]
    [ mkPackageInfo Workspace.pkgA
        [mkAstFile 1 [Workspace.idPkgA; Workspace.idFoo; Workspace.idFooInA]]
        [(Workspace.idPkgA, None); (Workspace.idFoo, Some Workspace.Foo)]
        [(Workspace.idFooInA, Workspace.Foo)];
      mkPackageInfo Workspace.pkgB
        [mkAstFile 52 [Workspace.idPkgB; Workspace.idRun]]
        [(Workspace.idPkgB, None); (Workspace.idRun, Some Workspace.Run)] [] ]
    Workspace.allNames Workspace.aAndB ro true.

End Scenario.

(** ** Two more programs

    A package with an external test package, which the loader creates
    beside the imported ones, and a package with an embedded field,
    whose identifier the type checker records both as the definition of
    the field and as a use of the type. *)
Module Variants.

Definition pkgATest := mkPackage 3 "a_test".
Definition TestFoo := mkObject 30 "TestFoo" pkgATest.
Definition a_test_go := mkTokenFile "a_test.go" 103 50.
Definition idPkgATest := mkIdent 300 110.
Definition idTestFoo := mkIdent 301 120.
Definition idFooInTest := mkIdent 302 130.

Definition infoA : PackageInfo :=
  mkPackageInfo Workspace.pkgA [mkAstFile 1 [Workspace.idPkgA; Workspace.idFoo]]
    [(Workspace.idPkgA, None); (Workspace.idFoo, Some Workspace.Foo)] [].

Definition infoATest : PackageInfo :=
  mkPackageInfo pkgATest [mkAstFile 103 [idPkgATest; idTestFoo; idFooInTest]]
    [(idPkgATest, None); (idTestFoo, Some TestFoo)] [(idFooInTest, Workspace.Foo)].

(** [a] defines [Foo]; its external test package [a_test] uses
    [a.Foo].  [a] is imported, [a_test] is only among all packages. *)
Definition withExternalTest : Program :=
  mkProgram [Workspace.a_go; a_test_go] [("a", infoA)]
    [(Workspace.pkgA, infoA); (pkgATest, infoATest)]
    (list_to_map [(100, "a"); (101, "Foo"); (300, "a_test"); (301, "TestFoo");
                  (302, "Foo")]).

Definition externalTest : Toolkit :=
  mkToolkit (λ pkgs, if bool_decide ("a" ∈ pkgs) then inl withExternalTest
                     else inr "cannot find package")
            [] Workspace.onlyA (λ o, Workspace.IsExported (obj_Name o))
            Workspace.ToLower Workspace.Node (Workspace.WriteFile ∅).

Definition TypeT := mkObject 20 "T" Workspace.pkgA.
Definition TypeS := mkObject 21 "S" Workspace.pkgA.
Definition FieldT := mkObject 22 "T" Workspace.pkgA.
Definition idT := mkIdent 310 20.
Definition idS := mkIdent 311 30.
Definition idTinS := mkIdent 312 40.

(** [a] alone declares [type T struct{}] and [type S struct{ T }]. *)
Definition embeddedField : Workspace.t :=
  Workspace.mk [Workspace.a_go]
    [ mkPackageInfo Workspace.pkgA
        [mkAstFile 1 [Workspace.idPkgA; idT; idS; idTinS]]
        [(Workspace.idPkgA, None); (idT, Some TypeT); (idS, Some TypeS);
         (idTinS, Some FieldT)]
        [(idTinS, TypeT)] ]
    (list_to_map [(100, "a"); (310, "T"); (311, "S"); (312, "T")])
    Workspace.onlyA ∅ true.

End Variants.

(** The definition and use sites of all the packages of a program,
    imported or not. *)
Definition allSites (gprog : Program) : list (Ident * option Object) :=
  AllPackages gprog ≫= λ e, Defs e.2 ++ ((λ u, (u.1, Some u.2)) <$> Uses e.2).

(** ** Notions of the further statements *)

(** [ioutil.WriteFile] changes no path but the one it is given. *)
Definition writesOnlyItsPath (tk : Toolkit) : Prop :=
  ∀ (fs : FS) filename data q,
    q ≠ filename → (ioutil_WriteFile tk fs filename data).1 !! q = fs !! q.

(** A call of [ioutil.WriteFile] that returns no error has stored the
    data under the path. *)
Definition writeStores (tk : Toolkit) : Prop :=
  ∀ (fs : FS) filename data,
    (ioutil_WriteFile tk fs filename data).2 = None →
    (ioutil_WriteFile tk fs filename data).1 !! filename = Some data.

(** The number of imported packages with a touched file. *)
Definition touchedPackages (gprog : Program)
    (touched : gset (option TokenFile)) : nat :=
  length (filter (λ e, touchedFiles (Fset gprog) touched (Files e.2) ≠ [])
                 (Imported gprog)).

(** The events that only inform: the scan errors and the lists printed
    in verbose mode. *)
Definition diagnostic (e : event) : Prop :=
  match e with
  | ScanError _ _ | ScanHeader | PossiblePackages _ | ExportedIdents _
  | SafeIdents _ => True
  | _ => False
  end.

Global Instance diagnostic_dec e : Decision (diagnostic e).
Proof. destruct e; simpl; apply _. Defined.

(** A trace without its diagnostics. *)
Definition core (out : list event) : list event :=
  filter (λ e, ¬ diagnostic e) out.

(** The toolkit with other scan errors of the import graph. *)
Definition withScanErrors (tk : Toolkit) (errs : list (string * string)) : Toolkit :=
  mkToolkit (loader_Load tk) errs (rev_Search tk) (Exported tk)
            (strings_ToLower tk) (format_Node tk) (ioutil_WriteFile tk).

(** The configuration with the verbose flag set to [v]. *)
Definition withVerbose (conf : config) (v : bool) : config :=
  mkConfig (importPath conf) (identifiers conf) (dryRun conf) v.

(** What is printed for the scan errors: the header and a line for
    each error, nothing when there is none. *)
Definition scanEvents (errs : list (string * string)) : list event :=
  match errs with
  | [] => []
  | _ => ScanHeader :: ((λ e, ScanError e.1 e.2) <$> errs)
  end.

(** ** The rename loop *)

Section rename.
Variable tk : Toolkit.
Variable fset : list TokenFile.
Variable plan : gset Object.

Local Abbreviation step := (renameStep tk fset plan).

Lemma renameSite_planned st s :
  planned plan s →
  ∃ o, s.2 = Some o ∧ o ∈ plan ∧
    step st s = mkRenameState (S (nidents st))
      (<[id_addr s.1 := strings_ToLower tk (obj_Name o)]> (names st))
      ({[ Fset_File fset (id_Pos s.1) ]} ∪ filesToUpdate st).
Proof.
  intros (o & Ho & Hin). exists o. split_and!; [done..|].
  unfold renameStep, renameSite. rewrite Ho. by rewrite bool_decide_eq_true_2.
Qed.

Lemma renameSite_skip st s : ¬ planned plan s → step st s = st.
Proof.
  intros Hn. unfold renameStep, renameSite. destruct s as [id [o|]]; simpl; [|done].
  case_bool_decide; [|done]. exfalso. apply Hn. by exists o.
Qed.

Lemma rename_nidents l st :
  nidents (foldl step st l) = nidents st + length (filter (planned plan) l).
Proof.
  revert st. induction l as [|s l IH]; intros st; simpl; [lia|].
  rewrite IH, filter_cons. destruct (decide (planned plan s)) as [Hp|Hp].
  - destruct (renameSite_planned st s Hp) as (o & _ & _ & ->). simpl. lia.
  - by rewrite renameSite_skip.
Qed.

Lemma rename_names_frame l st a :
  (∀ s, s ∈ l → id_addr s.1 = a → ¬ planned plan s) →
  names (foldl step st l) !! a = names st !! a.
Proof.
  revert st. induction l as [|s l IH]; intros st Hl; simpl; [done|].
  rewrite IH by (intros; apply Hl; [by right|done]).
  destruct (decide (planned plan s)) as [Hp|Hp].
  - destruct (renameSite_planned st s Hp) as (o & _ & _ & ->). simpl.
    apply lookup_insert_ne. intros Heq. by apply (Hl s); [left|..].
  - by rewrite renameSite_skip.
Qed.

Lemma rename_names_changed l st a :
  names (foldl step st l) !! a ≠ names st !! a →
  ∃ s, s ∈ l ∧ id_addr s.1 = a ∧ planned plan s.
Proof.
  revert st. induction l as [|s l IH]; intros st Hne; simpl in *; [done|].
  destruct (decide (names (foldl step (step st s) l) !! a = names (step st s) !! a))
    as [Heq|Hd].
  - rewrite Heq in Hne.
    destruct (decide (planned plan s)) as [Hp|Hp].
    + destruct (decide (id_addr s.1 = a)) as [Ha|Ha].
      * exists s. split_and!; [by left|done..].
      * destruct (renameSite_planned st s Hp) as (o & _ & _ & Hs).
        rewrite Hs in Hne. simpl in Hne. by rewrite lookup_insert_ne in Hne.
    + by rewrite renameSite_skip in Hne.
  - destruct (IH _ Hd) as (s' & ? & ? & ?). exists s'. split_and!; [by right|done..].
Qed.

(** The last planned site of an identifier decides its name. *)
Lemma rename_names_planned l st s :
  s ∈ l → planned plan s →
  ∃ s' o', s' ∈ l ∧ id_addr s'.1 = id_addr s.1 ∧ s'.2 = Some o' ∧ o' ∈ plan ∧
    names (foldl step st l) !! id_addr s.1 = Some (strings_ToLower tk (obj_Name o')).
Proof.
  revert st s. induction l as [|x l IH]; intros st s Hin Hp;
    [by apply elem_of_nil in Hin|].
  simpl.
  destruct (decide (Exists (λ y, id_addr y.1 = id_addr s.1 ∧ planned plan y) l))
    as [(y & Hy & Hay & Hpy)%Exists_exists|Hno]; [|rewrite Exists_exists in Hno].
  - destruct (IH (step st x) y Hy Hpy) as (s' & o' & ? & ? & ? & ? & Hn).
    exists s', o'. split_and!; [by right|congruence|done..|by rewrite <- Hay].
  - apply elem_of_cons in Hin as [->|Hin]; [|exfalso; apply Hno; eauto].
    destruct (renameSite_planned st x Hp) as (o & Ho & Hop & Hs).
    exists x, o. split_and!; [by left|done..|].
    rewrite rename_names_frame by (intros y ? ? ?; apply Hno; eauto).
    rewrite Hs. simpl. apply lookup_insert_eq.
Qed.

Lemma rename_files l st tf :
  tf ∈ filesToUpdate (foldl step st l) ↔
  tf ∈ filesToUpdate st ∨ ∃ s, s ∈ l ∧ planned plan s ∧ tf = Fset_File fset (id_Pos s.1).
Proof.
  revert st. induction l as [|s l IH]; intros st; simpl.
  - split; [by left|]. intros [?|(s & Hs & _)]; [done|by apply elem_of_nil in Hs].
  - rewrite IH. destruct (decide (planned plan s)) as [Hp|Hp].
    + destruct (renameSite_planned st s Hp) as (o & _ & _ & ->). simpl.
      rewrite elem_of_union, elem_of_singleton. split.
      * intros [[->|?]|(y & ? & ? & ?)]; [right; exists s|by left|right; exists y];
          (split_and!; [by constructor|done..]).
      * intros [?|(y & [->|?]%elem_of_cons & ? & ?)]; [by left; right|by left; left|right; eauto].
    + rewrite renameSite_skip by done. split.
      * intros [?|(y & ? & ? & ?)]; [by left|right; exists y; split_and!; [by right|done..]].
      * intros [?|(y & [->|?]%elem_of_cons & ? & ?)]; [by left|done|right; eauto].
Qed.

End rename.

Lemma renameIdents_sites tk gprog plan :
  renameIdents tk gprog plan =
  foldl (renameStep tk (Fset gprog) plan)
        (mkRenameState 0 (Names gprog) ∅) (sites gprog).
Proof.
  unfold renameIdents, sites.
  generalize (mkRenameState 0 (Names gprog) ∅).
  induction (Imported gprog) as [|e l IH]; intros st; simpl; [done|].
  rewrite foldl_app, IH. f_equal.
  unfold renamePackage. by rewrite foldl_app, foldl_fmap.
Qed.

(** ** The selection *)

Section selection.
Variable tk : Toolkit.

Lemma hasUse_true info o :
  hasUse info o = true ↔ ∃ id, (id, o) ∈ Uses info.
Proof.
  unfold hasUse. rewrite existsb_exists. split.
  - intros ([id o'] & Hin & Heq). apply bool_decide_eq_true in Heq.
    simpl in Heq. subst. exists id. by apply list_elem_of_In.
  - intros (id & Hin). exists (id, o). split; [by apply list_elem_of_In|].
    by apply bool_decide_eq_true.
Qed.

Lemma elem_of_exportedObjects info id o :
  (id, o) ∈ exportedObjects tk info ↔
  (id, Some o) ∈ Defs info ∧ Exported tk o = true.
Proof.
  unfold exportedObjects. rewrite list_elem_of_omap. split.
  - intros ([id' [o'|]] & Hin & Heq); simpl in Heq; [|done].
    destruct (Exported tk o') eqn:He; [|done]. by injection Heq as -> ->.
  - intros [Hin He]. exists (id, Some o). split; [done|]. simpl. by rewrite He.
Qed.

Lemma findExportedObjects_Some prog path objects :
  findExportedObjects tk prog path = Some objects →
  ∃ e, e ∈ AllPackages prog ∧ pkg_Path e.1 = path ∧
       objects = exportedObjects tk e.2.
Proof.
  unfold findExportedObjects.
  destruct (find _ _) as [e|] eqn:Hf; [|done]. intros [= <-].
  apply find_some in Hf as [Hin Hp]. apply bool_decide_eq_true in Hp.
  exists e. split_and!; [by apply list_elem_of_In|done..].
Qed.

Lemma elem_of_collect (l : list (Ident * Object)) (acc : gset Object) o :
  o ∈ foldl (λ acc' s, {[ s.2 ]} ∪ acc') acc l ↔ o ∈ acc ∨ ∃ id, (id, o) ∈ l.
Proof.
  revert acc. induction l as [|[id o'] l IH]; intros acc; simpl.
  - split; [by left|]. intros [?|(? & ?%elem_of_nil)]; done.
  - rewrite IH, elem_of_union, elem_of_singleton. split.
    + intros [[->|?]|(id' & ?)]; [right; exists id; by left|by left|right; exists id'; by right].
    + intros [?|(id' & [[= -> ->]|?]%elem_of_cons)]; [left; by right|left; by left|right; eauto].
Qed.

(** What the loop of [runMain] selects: the exported objects that
    some imported package does not use. *)
Lemma elem_of_objsToUpdate gprog objects o :
  o ∈ objsToUpdate gprog objects ↔
  (∃ id, (id, o) ∈ objects) ∧ ∃ e, e ∈ Imported gprog ∧ hasUse e.2 o = false.
Proof.
  unfold objsToUpdate.
  assert (∀ (l : list (string * PackageInfo)) (acc : gset Object),
    o ∈ foldl (λ acc e, foldl (λ acc' s, {[ s.2 ]} ∪ acc') acc
                          (filterObjects e.2 objects)) acc l ↔
    o ∈ acc ∨ ((∃ id, (id, o) ∈ objects) ∧ ∃ e, e ∈ l ∧ hasUse e.2 o = false)) as H.
  { induction l as [|e l IH]; intros acc; simpl.
    - split; [by left|]. intros [?|(_ & ? & ?%elem_of_nil & _)]; done.
    - rewrite IH, elem_of_collect. unfold filterObjects. split.
      + intros [[?|(id & Hin)]|(? & e' & ? & ?)]; [by left| |].
        * apply list_elem_of_filter in Hin as [Hu Hin]. right. split; [eauto|].
          exists e. split; [by left|done].
        * right. split; [done|]. exists e'. split; [by right|done].
      + intros [?|((id & Hin) & e' & [->|?]%elem_of_cons & Hu)]; [by left; left| |].
        * left; right. exists id. by apply list_elem_of_filter.
        * right. split; [eauto|]. eauto. }
  rewrite H. rewrite elem_of_empty. tauto.
Qed.

End selection.

(** ** The persistence loop *)

Section persistence.
Variable tk : Toolkit.
Variable fset : list TokenFile.
Variable nm : gmap nat string.
Variable touched : gset (option TokenFile).

Lemma rewrites_app l k : rewrites (l ++ k) = rewrites l ++ rewrites k.
Proof. apply omap_app. Qed.

Lemma persistEvents_app l k :
  persistEvents (l ++ k) = persistEvents l ++ persistEvents k.
Proof. apply bind_app. Qed.

Lemma failures_app l k : failures (l ++ k) = failures l + failures k.
Proof. unfold failures. by rewrite filter_app, length_app. Qed.

Lemma failures_cons f r rs :
  failures ((f, r) :: rs) = (if r is Some _ then 1 else 0) + failures rs.
Proof.
  unfold failures. rewrite filter_cons. simpl.
  destruct r as [e|]; destruct (decide _) as [Hd|Hd]; simpl; try done.
  exfalso. apply Hd. eauto.
Qed.

Lemma rewrites_persistEvents rs : rewrites (persistEvents rs) = rs.
Proof.
  induction rs as [|[f [e|]] rs IH]; [done|..];
    unfold persistEvents in *; rewrite bind_cons; simpl; by rewrite IH.
Qed.

Lemma touchedFiles_cons f files :
  touchedFiles fset touched (f :: files) =
  match Fset_File fset (f_Pos f) with
  | Some tf => if bool_decide (Some tf ∈ touched)
               then tf_Name tf :: touchedFiles fset touched files
               else touchedFiles fset touched files
  | None => touchedFiles fset touched files
  end.
Proof.
  unfold touchedFiles. cbn [omap list_omap].
  destruct (Fset_File fset (f_Pos f)); [case_bool_decide|]; done.
Qed.

Lemma persistFiles_trace files first st :
  let r := persistFiles tk fset nm touched files first st in
  ∃ rs,
    w_out (p_world r.1) = w_out (p_world st) ++ persistEvents rs ∧
    p_nerrs r.1 = p_nerrs st + failures rs ∧
    rs.*1 `sublist_of` omap (λ f, tf_Name <$> Fset_File fset (f_Pos f)) files ∧
    (is_Some r.2 → rs.*1 = touchedFiles fset touched files).
Proof.
  revert first st. induction files as [|f files IH]; intros first st.
  { exists []. simpl. rewrite app_nil_r.
    split_and!; [done|unfold failures; simpl; lia|done..]. }
  rewrite touchedFiles_cons. cbn [persistFiles omap list_omap].
  destruct (Fset_File fset (f_Pos f)) as [tf|] eqn:Hf; cbn [fmap option_fmap option_map].
  - case_bool_decide as Hin.
    + match goal with |- context [persistFiles _ _ _ _ files false ?s] =>
        destruct (IH false s) as (rs & Ho & Hn & Hs & Heq); set (st2 := s) in * end.
      set (res := rewriteFile tk fset nm f (tf_Name tf) _) in *.
      exists ((tf_Name tf, res.2) :: rs). split_and!.
      * cbn zeta. rewrite Ho. unfold persistEvents at 2. rewrite bind_cons.
        fold (persistEvents rs). subst st2.
        destruct (res.2) as [e|], first; simpl; by rewrite <- !app_assoc.
      * cbn zeta. rewrite Hn, failures_cons. subst st2.
        destruct (res.2) as [e|], first; simpl; lia.
      * simpl. by apply sublist_skip.
      * intros Hsome. simpl. f_equal. by apply Heq.
    + destruct (IH first st) as (rs & Ho & Hn & Hs & Heq).
      exists rs. split_and!; [done..|by apply sublist_cons|done].
  - case_bool_decide as Hin.
    + exists []. simpl. rewrite app_nil_r.
      split_and!; [by destruct first|destruct first; unfold failures; simpl; lia
                  |apply sublist_nil_l|by intros [? [=]]].
    + destruct (IH first st) as (rs & Ho & Hn & Hs & Heq). by exists rs.
Qed.

Lemma persistPackages_trace infos st :
  let r := persistPackages tk fset nm touched infos st in
  ∃ rs,
    w_out (p_world r.1) = w_out (p_world st) ++ persistEvents rs ∧
    p_nerrs r.1 = p_nerrs st + failures rs ∧
    rs.*1 `sublist_of`
      (infos ≫= λ e, omap (λ f, tf_Name <$> Fset_File fset (f_Pos f)) (Files e.2)) ∧
    (r.2 = true → rs.*1 = infos ≫= λ e, touchedFiles fset touched (Files e.2)).
Proof.
  revert st. induction infos as [|e infos IH]; intros st; simpl.
  { exists []. simpl. rewrite app_nil_r. split_and!; [done|unfold failures; simpl; lia|done..]. }
  destruct (persistFiles_trace (Files e.2) true st) as (rs1 & Ho1 & Hn1 & Hs1 & He1).
  destruct (persistFiles tk fset nm touched (Files e.2) true st) as [st1 [b|]]; simpl in *.
  - destruct (IH st1) as (rs2 & Ho2 & Hn2 & Hs2 & He2).
    exists (rs1 ++ rs2). rewrite persistEvents_app, failures_app, fmap_app.
    split_and!.
    + by rewrite Ho2, Ho1, <- app_assoc.
    + lia.
    + by apply sublist_app.
    + intros Hb. by rewrite He1, He2 by eauto.
  - exists rs1. split_and!; [done..| |done].
    rewrite <- (app_nil_r (rs1.*1)). apply sublist_app; [done|apply sublist_nil_l].
Qed.

End persistence.

(** ** The run *)

Section run.
Variable tk : Toolkit.

Lemma whenVerbose_trace conf e w :
  (∀ f r, e ≠ Rewrite f r) →
  ∃ pre, w_out (whenVerbose conf e w) = w_out w ++ pre ∧ rewrites pre = [] ∧
         w_fs (whenVerbose conf e w) = w_fs w.
Proof.
  intros He. unfold whenVerbose. destruct (verbose conf).
  - exists [e]. split_and!; [done| |done]. destruct e; try done. by destruct (He filename err).
  - exists []. by rewrite app_nil_r.
Qed.

Lemma reportScanErrors_trace w :
  ∃ pre, w_out (reportScanErrors tk w) = w_out w ++ pre ∧ rewrites pre = [] ∧
         w_fs (reportScanErrors tk w) = w_fs w.
Proof.
  unfold reportScanErrors.
  assert (∀ (l : list (string * string)) w0,
    ∃ pre, w_out (foldl (λ acc e, emit (ScanError e.1 e.2) acc) w0 l) = w_out w0 ++ pre ∧
           rewrites pre = [] ∧
           w_fs (foldl (λ acc e, emit (ScanError e.1 e.2) acc) w0 l) = w_fs w0) as H.
  { induction l as [|e l IH]; intros w0; simpl.
    - exists []. by rewrite app_nil_r.
    - destruct (IH (emit (ScanError e.1 e.2) w0)) as (pre & Ho & Hr & Hfs).
      exists (ScanError e.1 e.2 :: pre). rewrite Ho, Hfs. simpl.
      split_and!; [by rewrite <- app_assoc|done..]. }
  destruct (importgraph_errors tk) as [|e l].
  - exists []. by rewrite app_nil_r.
  - destruct (H (e :: l) (emit ScanHeader w)) as (pre & Ho & Hr & Hfs).
    exists (ScanHeader :: pre). rewrite Ho, Hfs. simpl.
    split_and!; [by rewrite <- app_assoc|done..].
Qed.

Lemma preamble_trace conf possible w :
  ∃ pre, w_out (preamble tk conf possible w) = w_out w ++ pre ∧ rewrites pre = [] ∧
         w_fs (preamble tk conf possible w) = w_fs w.
Proof.
  unfold preamble.
  destruct (reportScanErrors_trace w) as (p1 & Ho1 & Hr1 & Hf1).
  destruct (whenVerbose_trace conf (PossiblePackages (elements possible))
              (reportScanErrors tk w)) as (p2 & Ho2 & Hr2 & Hf2); [done|].
  exists (p1 ++ p2). rewrite Ho2, Ho1, Hf2, Hf1, rewrites_app, Hr1, Hr2.
  by rewrite <- app_assoc.
Qed.

(** A run that gets through both loads continues with the selection
    on the program of the second load. *)
Lemma runMain_fullLoad conf w possible gprog :
  fullLoad tk conf = Some (possible, gprog) →
  runMain tk conf w = unexportLoaded tk conf gprog (preamble tk conf possible w).
Proof.
  unfold fullLoad, runMain. case_bool_decide; [done|].
  destruct (loadProgram tk _) as [prog|]; [|done].
  destruct (findExportedObjects tk prog _) as [objs|]; [|done]. cbn zeta.
  destruct (loadProgram tk (possiblePackages tk objs)) as [g|]; [|done].
  by intros [= <- <-].
Qed.

(** A run that does not get through both loads fails or panics
    without a call of [rewriteFile], and leaves the disk alone. *)
Lemma runMain_noLoad conf w :
  fullLoad tk conf = None →
  ∃ pre, w_out (runMain tk conf w).1 = w_out w ++ pre ∧ rewrites pre = [] ∧
         w_fs (runMain tk conf w).1 = w_fs w ∧ (runMain tk conf w).2 ≠ Success ∧
         ∀ n, (runMain tk conf w).2 ≠ Failure (ErrRewrite n).
Proof.
  unfold fullLoad, runMain. case_bool_decide.
  { intros _. exists []. by rewrite app_nil_r. }
  destruct (loadProgram tk _) as [prog|].
  2:{ intros _. exists []. by rewrite app_nil_r. }
  destruct (reportScanErrors_trace w) as (p1 & Ho1 & Hr1 & Hf1).
  destruct (findExportedObjects tk prog _) as [objs|]; [|by exists p1].
  cbn zeta.
  destruct (whenVerbose_trace conf (PossiblePackages (elements (possiblePackages tk objs)))
              (reportScanErrors tk w)) as (p2 & Ho2 & Hr2 & Hf2); [done|].
  destruct (loadProgram tk (possiblePackages tk objs)) as [g|]; [done|].
  intros _. exists (p1 ++ p2). simpl.
  rewrite Ho2, Ho1, Hf2, Hf1, rewrites_app, Hr1, Hr2.
  by rewrite <- app_assoc.
Qed.

(** The trace of the part of [runMain] that follows the second load. *)
Lemma unexportLoaded_trace conf gprog w :
  let r := unexportLoaded tk conf gprog w in
  let rn := renameIdents tk gprog (renamePlan tk gprog (importPath conf)) in
  ∃ pre rs tail,
    w_out r.1 = w_out w ++ pre ++ persistEvents rs ++ tail ∧
    rewrites pre = [] ∧ rewrites tail = [] ∧
    rs.*1 `sublist_of` fileNames gprog ∧
    (r.2 ≠ Panicked →
       rs.*1 = touchedNames gprog (filesToUpdate rn) ∧
       (∃ npkgs, tail = [LogLine (summary (nidents rn) (size (filesToUpdate rn)) npkgs)]) ∧
       r.2 = if bool_decide (0 < failures rs)
             then Failure (ErrRewrite (failures rs)) else Success) ∧
    (findExportedObjects tk gprog (importPath conf) = None → rs = [] ∧ tail = []).
Proof.
  unfold unexportLoaded, renamePlan.
  destruct (findExportedObjects tk gprog (importPath conf)) as [objects|].
  2:{ exists [], [], []. simpl. rewrite app_nil_r.
      split_and!; [done..|apply sublist_nil_l|done|done]. }
  cbn zeta.
  set (plan := objsToUpdate gprog objects).
  set (rn := renameIdents tk gprog plan).
  destruct (whenVerbose_trace conf (ExportedIdents objects.*2) w)
    as (p1 & Ho1 & Hr1 & _); [done|].
  destruct (whenVerbose_trace conf (SafeIdents (elements plan))
              (whenVerbose conf (ExportedIdents objects.*2) w))
    as (p2 & Ho2 & Hr2 & _); [done|].
  set (w2 := whenVerbose conf (SafeIdents _) _) in *.
  destruct (persistPackages_trace tk (Fset gprog) (names rn) (filesToUpdate rn)
              (Imported gprog) (mkPersistState w2 0 0)) as (rs & Ho & Hn & Hs & He).
  destruct (persistPackages _ _ _ _ _ _) as [ps [|]]; simpl in *.
  - exists (p1 ++ p2), rs, [LogLine (summary (nidents rn) (size (filesToUpdate rn)) (p_npkgs ps))].
    rewrite Hn. split_and!.
    + case_bool_decide; simpl; rewrite Ho, Ho2, Ho1; by rewrite <- !app_assoc.
    + by rewrite rewrites_app, Hr1, Hr2.
    + done.
    + done.
    + intros _. split_and!; [by apply He|eauto|by case_bool_decide].
    + done.
  - exists (p1 ++ p2), rs, []. split_and!; [|by rewrite rewrites_app, Hr1, Hr2|done..].
    rewrite Ho, Ho2, Ho1, app_nil_r. by rewrite <- !app_assoc.
Qed.

(** The trace of a whole run. *)
Lemma runMain_trace conf w :
  let r := runMain tk conf w in
  ∃ pre rs tail,
    w_out r.1 = w_out w ++ pre ++ persistEvents rs ++ tail ∧
    rewrites pre = [] ∧ rewrites tail = [] ∧
    match fullLoad tk conf with
    | None => rs = [] ∧ tail = [] ∧ r.2 ≠ Success ∧ ∀ n, r.2 ≠ Failure (ErrRewrite n)
    | Some (_, gprog) =>
        let rn := renameIdents tk gprog (renamePlan tk gprog (importPath conf)) in
        rs.*1 `sublist_of` fileNames gprog ∧
        (r.2 ≠ Panicked →
           rs.*1 = touchedNames gprog (filesToUpdate rn) ∧
           (∃ npkgs, tail = [LogLine (summary (nidents rn) (size (filesToUpdate rn)) npkgs)]) ∧
           r.2 = if bool_decide (0 < failures rs)
                 then Failure (ErrRewrite (failures rs)) else Success) ∧
        (findExportedObjects tk gprog (importPath conf) = None → rs = [] ∧ tail = [])
    end.
Proof.
  destruct (fullLoad tk conf) as [[possible gprog]|] eqn:Hl; cbn zeta.
  - rewrite (runMain_fullLoad conf w possible gprog Hl).
    destruct (preamble_trace conf possible w) as (p0 & Ho0 & Hr0 & _).
    destruct (unexportLoaded_trace conf gprog (preamble tk conf possible w))
      as (pre & rs & tail & Ho & Hr & Ht & Hs & Hok & Hno).
    exists (p0 ++ pre), rs, tail. split_and!; [|by rewrite rewrites_app, Hr0, Hr|done..].
    rewrite Ho, Ho0. by rewrite <- !app_assoc.
  - destruct (runMain_noLoad conf w Hl) as (pre & Ho & Hr & _ & Hne & Hnr).
    exists pre, [], []. simpl. by rewrite app_nil_r.
Qed.

End run.

(** ** Runs that return *)

Section returns.
Variable tk : Toolkit.

Lemma persistFiles_resolve fset nm touched files first st :
  Forall (λ f, is_Some (Fset_File fset (f_Pos f))) files →
  is_Some (persistFiles tk fset nm touched files first st).2.
Proof.
  intros Hall. revert first st.
  induction Hall as [|f files [tf Hf] _ IH]; intros first st; cbn [persistFiles].
  - by eexists.
  - rewrite Hf. case_bool_decide; apply IH.
Qed.

Lemma persistPackages_resolve fset nm touched (infos : list (string * PackageInfo)) st :
  Forall (λ e, Forall (λ f, is_Some (Fset_File fset (f_Pos f))) (Files e.2)) infos →
  (persistPackages tk fset nm touched infos st).2 = true.
Proof.
  intros Hall. revert st. induction Hall as [|e infos He _ IH]; intros st; simpl; [done|].
  destruct (persistFiles_resolve fset nm touched (Files e.2) true st He) as [b Hb].
  destruct (persistFiles tk fset nm touched (Files e.2) true st) as [st1 o].
  simpl in Hb. subst o. apply IH.
Qed.

(** Past the second load, the run panics only where [findExportedObjects]
    finds no package of the given path. *)
Lemma unexportLoaded_panics conf gprog w :
  filesResolve gprog →
  (unexportLoaded tk conf gprog w).2 = Panicked ↔
  findExportedObjects tk gprog (importPath conf) = None.
Proof.
  intros Hres. unfold unexportLoaded.
  destruct (findExportedObjects tk gprog (importPath conf)) as [objects|]; [|done].
  cbn zeta.
  match goal with |- context [persistPackages ?a ?b ?c ?d ?e ?f] =>
    pose proof (persistPackages_resolve b c d e f Hres) as Hp;
    destruct (persistPackages a b c d e f) as [ps ok] end.
  simpl in Hp. subst ok. by case_bool_decide.
Qed.



Lemma sites_count gprog (P : Ident * option Object → Prop) `{∀ s, Decision (P s)} :
  length (filter P (sites gprog)) =
  length (filter P (defSites gprog)) + length (filter P (useSites gprog)).
Proof.
  unfold sites, defSites, useSites.
  induction (Imported gprog) as [|e l IH]; [done|].
  rewrite !bind_cons, !filter_app, !length_app, IH. lia.
Qed.

End returns.

(** ** The claims *)

(** C7, as amended.  In a run that gets through both loads and returns,
    the occurrence count of the summary line is the number of definition
    sites plus the number of use sites, over the packages of the full
    load ([globalProg.Imported]), that are bound to an object of the
    rename plan; and the name of an identifier none of whose sites is
    bound to an object of the plan is what it was before the rename. *)
Theorem C7_occurrence_count tk conf w possible gprog :
  fullLoad tk conf = Some (possible, gprog) →
  filesResolve gprog →
  is_Some (findExportedObjects tk gprog (importPath conf)) →
  let plan := renamePlan tk gprog (importPath conf) in
  (∃ nfiles npkgs,
     last (w_out (runMain tk conf w).1) =
     Some (LogLine (summary (length (filter (planned plan) (defSites gprog)) +
                             length (filter (planned plan) (useSites gprog)))
                            nfiles npkgs))) ∧
  ∀ a, (∀ s, s ∈ sites gprog → id_addr s.1 = a → ¬ planned plan s) →
       renamedNames tk gprog (importPath conf) !! a = Names gprog !! a.
Proof.
  intros Hl Hres Hobj plan. split.
  - pose proof (runMain_trace tk conf w) as Ht. cbn zeta in Ht. rewrite Hl in Ht.
    destruct Ht as (pre & rs & tail & Ho & _ & _ & _ & Hok & _).
    assert ((runMain tk conf w).2 ≠ Panicked) as Hnp.
    { rewrite (runMain_fullLoad tk conf w possible gprog Hl).
      rewrite unexportLoaded_panics by done. by destruct Hobj as [? ->]. }
    destruct (Hok Hnp) as (_ & (npkgs & ->) & _).
    eexists _, npkgs. rewrite Ho, !app_assoc, last_snoc. do 3 f_equal.
    rewrite renameIdents_sites, rename_nidents. simpl. apply sites_count.
  - intros a Ha. unfold renamedNames. rewrite renameIdents_sites.
    by rewrite rename_names_frame.
Qed.

(** C8.  Every definition or use site bound to an object of the plan
    carries, after the rename, the lower-case transform of the name of
    that object: a function of the name alone, the same at every site,
    applied whatever other identifiers the program holds.  Sites that
    share an identifier are taken to be bound to objects of one name. *)
Theorem C8_lowercase_at_every_site tk gprog path s o :
  consistent gprog →
  s ∈ sites gprog → s.2 = Some o → o ∈ renamePlan tk gprog path →
  renamedNames tk gprog path !! id_addr s.1 = Some (strings_ToLower tk (obj_Name o)).
Proof.
  intros Hc Hs Ho Hin. unfold renamedNames. rewrite renameIdents_sites.
  destruct (rename_names_planned tk (Fset gprog) (renamePlan tk gprog path)
              (sites gprog) (mkRenameState 0 (Names gprog) ∅) s Hs)
    as (s' & o' & Hs' & Ha & Ho' & _ & ->); [by exists o|].
  do 2 f_equal. symmetry. by apply (Hc s s' o o').
Qed.

(** C9.  In every run the calls of [rewriteFile], the only place that
    writes a file, are made for pairwise different file names, given
    that the files of the loaded packages have different names. *)
Theorem C9_each_file_written_once tk conf w :
  (∀ possible gprog, fullLoad tk conf = Some (possible, gprog) →
                     NoDup (fileNames gprog)) →
  ∃ evs, w_out (runMain tk conf w).1 = w_out w ++ evs ∧ NoDup (rewrites evs).*1.
Proof.
  intros Hnd. pose proof (runMain_trace tk conf w) as Ht. cbn zeta in Ht.
  destruct Ht as (pre & rs & tail & Ho & Hp & Htl & Hcase).
  exists (pre ++ persistEvents rs ++ tail). split; [done|].
  rewrite !rewrites_app, Hp, Htl, rewrites_persistEvents, app_nil_r. simpl.
  destruct (fullLoad tk conf) as [[possible gprog]|] eqn:Hl.
  - destruct Hcase as (Hs & _). eapply sublist_NoDup; [by eapply Hnd|exact Hs].
  - destruct Hcase as (-> & _). constructor.
Qed.

(** C10.  Every object of the rename plan is exported and is bound by
    a definition site of the package of the target path; it belongs to
    that package when definitions belong to the package that holds
    them; and an identifier whose name the rename changes has a site
    bound to an object of the plan. *)
Theorem C10_plan_exported_and_in_target tk gprog path :
  (∀ o, o ∈ renamePlan tk gprog path →
     Exported tk o = true ∧
     ∃ e id, e ∈ AllPackages gprog ∧ pkg_Path e.1 = path ∧ (id, Some o) ∈ Defs e.2) ∧
  ((∀ e id o, e ∈ AllPackages gprog → (id, Some o) ∈ Defs e.2 → obj_Pkg o = e.1) →
   ∀ o, o ∈ renamePlan tk gprog path → pkg_Path (obj_Pkg o) = path) ∧
  (∀ a, renamedNames tk gprog path !! a ≠ Names gprog !! a →
     ∃ s o, s ∈ sites gprog ∧ id_addr s.1 = a ∧ s.2 = Some o ∧
            o ∈ renamePlan tk gprog path).
Proof.
  assert (∀ o, o ∈ renamePlan tk gprog path →
     Exported tk o = true ∧
     ∃ e id, e ∈ AllPackages gprog ∧ pkg_Path e.1 = path ∧ (id, Some o) ∈ Defs e.2) as H1.
  { intros o. unfold renamePlan.
    destruct (findExportedObjects tk gprog path) as [objects|] eqn:Hf;
      [|by intros ?%elem_of_empty].
    intros ((id & Hin) & _)%elem_of_objsToUpdate.
    apply findExportedObjects_Some in Hf as (e & He & Hp & ->).
    apply elem_of_exportedObjects in Hin as [Hd Hx]. split; [done|]. by exists e, id. }
  split_and!; [done| |].
  - intros Hown o Ho. destruct (H1 o Ho) as (_ & e & id & He & <- & Hd).
    by rewrite (Hown e id o).
  - intros a Ha. unfold renamedNames in Ha. rewrite renameIdents_sites in Ha.
    apply rename_names_changed in Ha as (s & Hs & Hsa & o & Ho & Hin).
    by exists s, o.
Qed.



(** C7 on the workspace where [a] defines [Foo], [Bar] and [helper]. *)
Lemma C7_witness :
  let ws := Workspace.unused ∅ in
  let tk := Workspace.toolkit ws in
  let conf := configOf (Workspace.flagsFor "" false) in
  let gprog := Workspace.program ws {[ "a" ]} in
  let plan := renamePlan tk gprog (importPath conf) in
  fullLoad tk conf = Some ({[ "a" ]}, gprog) ∧
  filesResolve gprog ∧
  is_Some (findExportedObjects tk gprog (importPath conf)) ∧
  (∃ nfiles npkgs,
     last (w_out (runMain tk conf (Workspace.start ws)).1) =
     Some (LogLine (summary (length (filter (planned plan) (defSites gprog)) +
                             length (filter (planned plan) (useSites gprog)))
                            nfiles npkgs))) ∧
  ∀ a, (∀ s, s ∈ sites gprog → id_addr s.1 = a → ¬ planned plan s) →
       renamedNames tk gprog (importPath conf) !! a = Names gprog !! a.
Proof.
  assert (fullLoad (Workspace.toolkit (Workspace.unused ∅))
            (configOf (Workspace.flagsFor "" false)) =
          Some ({[ "a" ]}, Workspace.program (Workspace.unused ∅) {[ "a" ]})) as Hl
    by (vm_compute; reflexivity).
  assert (filesResolve (Workspace.program (Workspace.unused ∅) {[ "a" ]})) as Hres
    by (unfold filesResolve; simpl; repeat constructor; by eexists).
  assert (is_Some (findExportedObjects (Workspace.toolkit (Workspace.unused ∅))
            (Workspace.program (Workspace.unused ∅) {[ "a" ]})
            (importPath (configOf (Workspace.flagsFor "" false))))) as Hobj
    by (by eexists).
  split_and!; [exact Hl|exact Hres|exact Hobj|..];
    apply (C7_occurrence_count _ _ (Workspace.start (Workspace.unused ∅)) _ _ Hl Hres Hobj).
Defined.

(** C8 at the definition site of [Foo]. *)
Lemma C8_witness :
  let ws := Workspace.unused ∅ in
  let tk := Workspace.toolkit ws in
  let gprog := Workspace.program ws {[ "a" ]} in
  let s := (Workspace.idFoo, Some Workspace.Foo) in
  consistent gprog ∧
  s ∈ sites gprog ∧
  Workspace.Foo ∈ renamePlan tk gprog "a" ∧
  renamedNames tk gprog "a" !! id_addr s.1 = Some "foo".
Proof.
  assert (consistent (Workspace.program (Workspace.unused ∅) {[ "a" ]})) as Hc.
  { intros s s' o o' Hs Hs' Ha Ho Ho'. vm_compute in Hs, Hs'.
    repeat (apply elem_of_cons in Hs as [->|Hs]);
      [..|by apply elem_of_nil in Hs]; simpl in Ho; try discriminate;
      injection Ho as <-;
      (repeat (apply elem_of_cons in Hs' as [->|Hs']);
       [..|by apply elem_of_nil in Hs']); simpl in Ho', Ha; try discriminate;
      by injection Ho' as <-. }
  assert ((Workspace.idFoo, Some Workspace.Foo) ∈
          sites (Workspace.program (Workspace.unused ∅) {[ "a" ]})) as Hs
    by (vm_compute; set_solver).
  assert (Workspace.Foo ∈ renamePlan (Workspace.toolkit (Workspace.unused ∅))
            (Workspace.program (Workspace.unused ∅) {[ "a" ]}) "a") as Hin
    by (refine (bool_decide_unpack _ _); vm_compute; exact I).
  split_and!; [exact Hc|exact Hs|exact Hin|].
  exact (C8_lowercase_at_every_site _ _ _ _ _ Hc Hs eq_refl Hin).
Defined.

(** C9 on the workspace where both [a.go] and [b.go] are rewritten. *)
Lemma C9_witness :
  let ws := Workspace.externalUse in
  let tk := Workspace.toolkit ws in
  let conf := configOf (Workspace.flagsFor "" false) in
  let w := Workspace.start ws in
  (∀ possible gprog, fullLoad tk conf = Some (possible, gprog) →
                     NoDup (fileNames gprog)) ∧
  ∃ evs, w_out (runMain tk conf w).1 = w_out w ++ evs ∧ NoDup (rewrites evs).*1.
Proof.
  assert (∀ possible gprog,
            fullLoad (Workspace.toolkit Workspace.externalUse)
              (configOf (Workspace.flagsFor "" false)) = Some (possible, gprog) →
            NoDup (fileNames gprog)) as Hnd.
  { intros possible gprog H. vm_compute in H. injection H as _ Hg. subst gprog.
    refine (bool_decide_unpack _ _). vm_compute. exact I. }
  split; [exact Hnd|].
  exact (C9_each_file_written_once _ _ (Workspace.start Workspace.externalUse) Hnd).
Defined.

(** ** Where the command departs from its documentation *)

(** X2.  [runMain] gives the same result whatever the dry-run flag and
    the identifier list of its configuration are. *)
Lemma runMain_ignores_flags tk path ids ids' dry dry' v w :
  runMain tk (mkConfig path ids dry v) w = runMain tk (mkConfig path ids' dry' v) w.
Proof. reflexivity. Qed.

(** X4.  A target without exported objects makes the second load a
    load of no package; when such a load gives a program without
    packages, or an error, the run does not succeed. *)
Lemma runMain_no_exports tk conf w prog :
  importPath conf ≠ "" →
  loader_Load tk {[ importPath conf ]} = inl prog →
  findExportedObjects tk prog (importPath conf) = Some [] →
  (∀ gprog, loader_Load tk ∅ = inl gprog → AllPackages gprog = []) →
  (runMain tk conf w).2 ≠ Success.
Proof.
  intros Hp Hl Hf He. unfold runMain, loadProgram.
  rewrite bool_decide_eq_false_2 by done. cbn zeta. rewrite Hl, Hf.
  change (possiblePackages tk []) with (∅ : gset string).
  destruct (loader_Load tk ∅) as [gprog|err] eqn:Hg; [|done].
  unfold unexportLoaded, findExportedObjects. by rewrite (He gprog).
Qed.

(** C1.  [a] defines [Foo] and has no use of it; [b] imports [a] and
    uses [a.Foo].  The loop adds [Foo] to [objsToUpdate] when it visits
    [a], which has no use of [Foo], and the use in [b] does not take it
    out: [Foo] is in the plan and both files are rewritten. *)
Theorem C1_external_use_is_renamed :
  let ws := Workspace.externalUse in
  let tk := Workspace.toolkit ws in
  let fl := Workspace.flagsFor "" false in
  let gprog := Workspace.program ws {[ "a"; "b" ]} in
  let r := main tk fl (Workspace.start ws) in
  fullLoad tk (configOf fl) = Some ({[ "a"; "b" ]}, gprog) ∧
  Exported tk Workspace.Foo = true ∧
  pkg_Path (obj_Pkg Workspace.Foo) = "a" ∧
  (Workspace.idFooInB, Some Workspace.Foo) ∈ useSites gprog ∧
  (∃ e, e ∈ Imported gprog ∧ e.1 = "b" ∧ hasUse e.2 Workspace.Foo = true) ∧
  Workspace.Foo ∈ renamePlan tk gprog "a" ∧
  w_fs (Workspace.start ws) !! "b.go" = Some "b Run Foo" ∧
  w_fs r.1 !! "a.go" = Some "a foo" ∧
  w_fs r.1 !! "b.go" = Some "b Run foo" ∧
  r.2 = 0.
Proof.
  cbn zeta. split_and!; try (vm_compute; reflexivity).
  - vm_compute. set_solver.
  - eexists. split_and!; [apply list_elem_of_lookup; by exists 1|done..].
Qed.

(** C2.  [a] is the only package; it defines [Foo] and uses it itself.
    No other package uses [Foo], yet [hasUse] finds the use inside [a]
    and [Foo] stays out of the plan: nothing is renamed. *)
Theorem C2_internal_use_blocks_rename :
  let ws := Workspace.internalUse in
  let tk := Workspace.toolkit ws in
  let fl := Workspace.flagsFor "" false in
  let gprog := Workspace.program ws {[ "a" ]} in
  let r := main tk fl (Workspace.start ws) in
  fullLoad tk (configOf fl) = Some ({[ "a" ]}, gprog) ∧
  Exported tk Workspace.Foo = true ∧
  pkg_Path (obj_Pkg Workspace.Foo) = "a" ∧
  (∀ e, e ∈ Imported gprog → e.1 ≠ "a" → hasUse e.2 Workspace.Foo = false) ∧
  (Workspace.Foo ∉ renamePlan tk gprog "a") ∧
  w_fs r.1 = w_fs (Workspace.start ws) ∧
  w_out r.1 = [LogLine "Unexported 0 occurrences in 0 files in 0 packages."] ∧
  r.2 = 0.
Proof.
  cbn zeta. split_and!; try (vm_compute; reflexivity).
  - intros e He Hne. vm_compute in He.
    apply list_elem_of_singleton in He as ->. by destruct Hne.
  - refine (bool_decide_unpack _ _). vm_compute. exact I.
Qed.

(** C3.  With the dry-run flag set the run on a package with unused
    exported objects overwrites [a.go] all the same: the flag reaches
    the configuration and is never read. *)
Theorem C3_dry_run_overwrites_file :
  let ws := Workspace.unused ∅ in
  let tk := Workspace.toolkit ws in
  let dry := main tk (Workspace.flagsFor "" true) (Workspace.start ws) in
  let wet := main tk (Workspace.flagsFor "" false) (Workspace.start ws) in
  dryRun (configOf (Workspace.flagsFor "" true)) = true ∧
  w_fs (Workspace.start ws) !! "a.go" = Some "a Foo Bar helper" ∧
  w_fs dry.1 !! "a.go" = Some "a foo bar helper" ∧
  w_out dry.1 = [Rewrite "a.go" None;
                 LogLine "Unexported 2 occurrences in 1 file in 1 package."] ∧
  dry = wet.
Proof. cbn zeta. split_and!; vm_compute; reflexivity. Qed.

(** C4.  With [-identifier Foo] the plan still holds [Bar], whose name
    is not in the list, and [Bar] is renamed: the list reaches the
    configuration and is never read. *)
Theorem C4_allowlist_is_ignored :
  let ws := Workspace.unused ∅ in
  let tk := Workspace.toolkit ws in
  let fl := Workspace.flagsFor "Foo" false in
  let gprog := Workspace.program ws {[ "a" ]} in
  let r := main tk fl (Workspace.start ws) in
  identifiers (configOf fl) = ["Foo"] ∧
  fullLoad tk (configOf fl) = Some ({[ "a" ]}, gprog) ∧
  (obj_Name Workspace.Bar ∉ identifiers (configOf fl)) ∧
  Workspace.Bar ∈ renamePlan tk gprog "a" ∧
  renamedNames tk gprog "a" !! id_addr Workspace.idBar = Some "bar" ∧
  w_fs r.1 !! "a.go" = Some "a foo bar helper" ∧
  r.2 = 0.
Proof.
  cbn zeta. split_and!; try (vm_compute; reflexivity).
  - vm_compute. by intros ?%list_elem_of_singleton.
Qed.

(** C5.  [a] exports nothing, so the set of possible packages is empty
    and the second load is a load of no package.  When that load is an
    error (as in go/loader) the process exits with status 1; when it
    returns a program without packages, [findExportedObjects] finds no
    package, dereferences the nil info and the process panics. *)
Theorem C5_no_exports_run_fails :
  let fl := Workspace.flagsFor "" false in
  let strict := Workspace.noExports true in
  let lax := Workspace.noExports false in
  findExportedObjects (Workspace.toolkit strict)
    (Workspace.program strict {[ "a" ]}) "a" = Some [] ∧
  main (Workspace.toolkit strict) fl (Workspace.start strict) =
    (mkWorld (Workspace.disk strict) [ErrorLine "no initial packages were loaded"], 1) ∧
  main (Workspace.toolkit lax) fl (Workspace.start lax) =
    (mkWorld (Workspace.disk lax) [], 2).
Proof. cbn zeta. split_and!; vm_compute; reflexivity. Qed.

(** ** What the command does instead *)

(** X1.  The rename plan holds exactly the exported objects defined in
    the package of the target path for which some imported package,
    the target included, has no use. *)
Theorem X1_plan_is_unused_somewhere tk gprog path o :
  o ∈ renamePlan tk gprog path ↔
  ∃ objects, findExportedObjects tk gprog path = Some objects ∧
    (∃ id, (id, o) ∈ objects) ∧
    ∃ e, e ∈ Imported gprog ∧ hasUse e.2 o = false.
Proof.
  unfold renamePlan. destruct (findExportedObjects tk gprog path) as [objects|].
  - rewrite elem_of_objsToUpdate. split.
    + intros [? ?]. by exists objects.
    + by intros (? & [= <-] & ? & ?).
  - split; [by intros ?%elem_of_empty|by intros (? & [=] & _)].
Qed.

(** X3.  A run that does not get through both loads writes no file,
    calls [rewriteFile] for none and does not succeed. *)
Theorem X3_failed_load_touches_nothing tk conf w :
  fullLoad tk conf = None →
  w_fs (runMain tk conf w).1 = w_fs w ∧
  rewrites (w_out (runMain tk conf w).1) = rewrites (w_out w) ∧
  (runMain tk conf w).2 ≠ Success.
Proof.
  intros Hl. destruct (runMain_noLoad tk conf w Hl) as (pre & Ho & Hp & Hfs & Hne & _).
  split_and!; [done| |done]. by rewrite Ho, rewrites_app, Hp, app_nil_r.
Qed.

(** X3 on a target path that no package of the workspace has. *)
Lemma X3_witness :
  let tk := Workspace.toolkit (Workspace.unused ∅) in
  let conf := mkConfig "missing" [""] false false in
  let w := Workspace.start (Workspace.unused ∅) in
  fullLoad tk conf = None ∧
  w_fs (runMain tk conf w).1 = w_fs w ∧
  rewrites (w_out (runMain tk conf w).1) = rewrites (w_out w) ∧
  (runMain tk conf w).2 ≠ Success.
Proof.
  assert (fullLoad (Workspace.toolkit (Workspace.unused ∅))
            (mkConfig "missing" [""] false false) = None) as Hl
    by (vm_compute; reflexivity).
  split; [exact Hl|].
  exact (X3_failed_load_touches_nothing _ _ (Workspace.start (Workspace.unused ∅)) Hl).
Defined.

(** X4 on the package without exported objects. *)
Lemma X4_witness :
  let ws := Workspace.noExports false in
  let tk := Workspace.toolkit ws in
  let conf := configOf (Workspace.flagsFor "" false) in
  importPath conf ≠ "" ∧
  loader_Load tk {[ importPath conf ]} = inl (Workspace.program ws {[ "a" ]}) ∧
  findExportedObjects tk (Workspace.program ws {[ "a" ]}) (importPath conf) = Some [] ∧
  (∀ gprog, loader_Load tk ∅ = inl gprog → AllPackages gprog = []) ∧
  (runMain tk conf (Workspace.start ws)).2 ≠ Success.
Proof.
  assert (importPath (configOf (Workspace.flagsFor "" false)) ≠ "") as Hp by done.
  assert (loader_Load (Workspace.toolkit (Workspace.noExports false))
            {[ importPath (configOf (Workspace.flagsFor "" false)) ]} =
          inl (Workspace.program (Workspace.noExports false) {[ "a" ]})) as Hl
    by (vm_compute; reflexivity).
  assert (findExportedObjects (Workspace.toolkit (Workspace.noExports false))
            (Workspace.program (Workspace.noExports false) {[ "a" ]})
            (importPath (configOf (Workspace.flagsFor "" false))) = Some []) as Hf
    by (vm_compute; reflexivity).
  assert (∀ gprog, loader_Load (Workspace.toolkit (Workspace.noExports false)) ∅ =
                   inl gprog → AllPackages gprog = []) as He.
  { intros gprog H. vm_compute in H. injection H as Hg. by subst gprog. }
  split_and!; [exact Hp|exact Hl|exact Hf|exact He|].
  exact (runMain_no_exports _ _ (Workspace.start (Workspace.noExports false)) _ Hp Hl Hf He).
Defined.

(** ** Further properties of the helpers *)

Lemma findExportedObjects_cases tk prog path :
  (findExportedObjects tk prog path = None ↔
   ∀ e, e ∈ AllPackages prog → pkg_Path e.1 ≠ path) ∧
  (∀ objects, findExportedObjects tk prog path = Some objects →
     ∃ l e k, AllPackages prog = l ++ e :: k ∧ pkg_Path e.1 = path ∧
              (∀ e', e' ∈ l → pkg_Path e'.1 ≠ path) ∧
              objects = exportedObjects tk e.2).
Proof.
  unfold findExportedObjects. induction (AllPackages prog) as [|e l IH]; simpl.
  - split; [split; [by intros _ ? ?%elem_of_nil|done]|done].
  - case_bool_decide as Hp.
    + split.
      * split; [done|]. intros H. destruct (H e); [by left|done].
      * intros objects [= <-]. exists [], e, l. split_and!; [done..| |done].
        by intros ? ?%elem_of_nil.
    + destruct IH as [IH1 IH2]. split.
      * rewrite IH1. split.
        -- intros H e' [->|?]%elem_of_cons; [done|by apply H].
        -- intros H e' ?. apply H. by right.
      * intros objects Ho. destruct (IH2 objects Ho) as (l' & e' & k & -> & ? & Hl & ->).
        exists (e :: l'), e', k. split_and!; [done..| |done].
        intros x [->|?]%elem_of_cons; [done|by apply Hl].
Qed.

(** X5.  [findExportedObjects] dereferences the nil info exactly when
    no package of the program has the given path; otherwise it returns
    the exported objects of the first such package. *)
Theorem X5_findExportedObjects_panics_iff_no_package tk prog path :
  (findExportedObjects tk prog path = None ↔
   ∀ e, e ∈ AllPackages prog → pkg_Path e.1 ≠ path) ∧
  (∀ objects, findExportedObjects tk prog path = Some objects →
     ∃ l e k, AllPackages prog = l ++ e :: k ∧ pkg_Path e.1 = path ∧
              (∀ e', e' ∈ l → pkg_Path e'.1 ≠ path) ∧
              objects = exportedObjects tk e.2).
Proof. apply findExportedObjects_cases. Qed.

(** X6.  [filterObjects] keeps, in their order, exactly the entries
    whose object no use site of the package is bound to. *)
Theorem X6_filterObjects_keeps_the_unused info exported :
  filterObjects info exported `sublist_of` exported ∧
  ∀ id o, (id, o) ∈ filterObjects info exported ↔
          (id, o) ∈ exported ∧ ∀ id', (id', o) ∉ Uses info.
Proof.
  unfold filterObjects. split; [apply sublist_filter|].
  intros id o. rewrite list_elem_of_filter. simpl. split.
  - intros [Hu Hin]. split; [done|]. intros id' Hin'.
    assert (hasUse info o = true) as Ht by (apply hasUse_true; eauto). congruence.
  - intros [Hin Hno]. split; [|done].
    destruct (hasUse info o) eqn:Hu; [|done].
    apply hasUse_true in Hu as [id' Hin']. by destruct (Hno id').
Qed.

(** X7.  The set of possible packages is the union, over the exported
    objects of the first load, of what the reverse import graph reaches
    from the package of the object: it is empty when nothing is
    exported, and holds the target when something is and a search
    reaches its own root. *)
Theorem X7_possiblePackages_is_union_of_searches tk objs :
  (∀ p, p ∈ possiblePackages tk objs ↔
        ∃ e, e ∈ objs ∧ p ∈ rev_Search tk (pkg_Path (obj_Pkg e.2))) ∧
  (objs = [] → possiblePackages tk objs = ∅) ∧
  (∀ e, e ∈ objs →
        pkg_Path (obj_Pkg e.2) ∈ rev_Search tk (pkg_Path (obj_Pkg e.2)) →
        pkg_Path (obj_Pkg e.2) ∈ possiblePackages tk objs).
Proof.
  assert (∀ p, p ∈ possiblePackages tk objs ↔
               ∃ e, e ∈ objs ∧ p ∈ rev_Search tk (pkg_Path (obj_Pkg e.2))) as H.
  { intros p. unfold possiblePackages.
    assert (∀ (l : list (Ident * Object)) (acc : gset string),
      p ∈ foldl (λ acc e, acc ∪ rev_Search tk (pkg_Path (obj_Pkg e.2))) acc l ↔
      p ∈ acc ∨ ∃ e, e ∈ l ∧ p ∈ rev_Search tk (pkg_Path (obj_Pkg e.2))) as Hg.
    { induction l as [|e l IH]; intros acc; simpl.
      - split; [by left|]. intros [?|(? & ?%elem_of_nil & _)]; done.
      - rewrite IH, elem_of_union. split.
        + intros [[?|?]|(e' & ? & ?)]; [by left|right; exists e|right; exists e'];
            (split; [by constructor|done]).
        + intros [?|(e' & [->|?]%elem_of_cons & ?)]; [by left; left|by left; right|].
          right. eauto. }
    rewrite Hg, elem_of_empty. tauto. }
  split_and!; [done|by intros ->|].
  intros e He Hr. apply H. eauto.
Qed.

(** ** Further properties of the rename loop *)

Lemma rename_files_size tk fset plan l st :
  size (filesToUpdate (foldl (renameStep tk fset plan) st l)) ≤
  size (filesToUpdate st) + length (filter (planned plan) l).
Proof.
  revert st. induction l as [|s l IH]; intros st; simpl; [lia|].
  etrans; [apply IH|]. rewrite filter_cons.
  destruct (decide (planned plan s)) as [Hp|Hp].
  - destruct (renameSite_planned tk fset plan st s Hp) as (o & _ & _ & ->). simpl.
    pose proof (size_union_alt ({[ Fset_File fset (id_Pos s.1) ]} : gset _)
                  (filesToUpdate st)) as Hs.
    rewrite Hs, size_singleton.
    assert (size (filesToUpdate st ∖ {[ Fset_File fset (id_Pos s.1) ]}) ≤
            size (filesToUpdate st)) as Hle
      by (apply subseteq_size, subseteq_difference_l; done).
    lia.
  - rewrite renameSite_skip by done. lia.
Qed.

(** X8.  After the rename loop the set of files to update holds
    exactly the files (nil for a position outside the file set) of the
    sites bound to an object of the plan, and it has at most as many
    members as occurrences were counted. *)
Theorem X8_filesToUpdate_are_files_of_planned_sites tk gprog plan :
  (∀ tf, tf ∈ filesToUpdate (renameIdents tk gprog plan) ↔
         ∃ s, s ∈ sites gprog ∧ planned plan s ∧
              tf = Fset_File (Fset gprog) (id_Pos s.1)) ∧
  size (filesToUpdate (renameIdents tk gprog plan)) ≤
    nidents (renameIdents tk gprog plan).
Proof.
  rewrite renameIdents_sites. split.
  - intros tf. rewrite rename_files. simpl. rewrite elem_of_empty. tauto.
  - rewrite rename_nidents. simpl.
    etrans; [apply rename_files_size|]. cbn [filesToUpdate].
    rewrite size_empty. lia.
Qed.

Lemma renameIdents_unplanned tk gprog plan :
  (∀ s, s ∈ sites gprog → ¬ planned plan s) →
  renameIdents tk gprog plan = mkRenameState 0 (Names gprog) ∅.
Proof.
  intros Hno. rewrite renameIdents_sites.
  generalize (mkRenameState 0 (Names gprog) ∅).
  induction (sites gprog) as [|s l IH]; intros st; simpl; [done|].
  rewrite renameSite_skip by (apply Hno; by left).
  apply IH. intros s' ?. apply Hno. by right.
Qed.

(** ** Further properties of the persistence loop *)

Section disk.
Variable tk : Toolkit.
Variable fset : list TokenFile.
Variable nm : gmap nat string.
Variable touched : gset (option TokenFile).

Lemma persistFiles_npkgs files first st :
  let r := persistFiles tk fset nm touched files first st in
  is_Some r.2 →
  p_npkgs r.1 = p_npkgs st +
    (if first && bool_decide (touchedFiles fset touched files ≠ []) then 1 else 0).
Proof.
  revert first st. induction files as [|f files IH]; intros first st; cbn zeta.
  { intros _. destruct first; simpl; lia. }
  rewrite touchedFiles_cons. cbn [persistFiles].
  destruct (Fset_File fset (f_Pos f)) as [tf|] eqn:Hf.
  - destruct (decide (Some tf ∈ touched)) as [Hin|Hin].
    + rewrite !(bool_decide_eq_true_2 (Some tf ∈ touched)) by done.
      match goal with |- context [persistFiles _ _ _ _ files false ?s] =>
        pose proof (IH false s) as IH'; set (st2 := s) in * end.
      cbn zeta in *. intros Hs. rewrite (IH' Hs). subst st2.
      rewrite (bool_decide_eq_true_2 (_ :: _ ≠ [])) by done.
      destruct ((rewriteFile tk fset nm f (tf_Name tf) _).2), first; simpl; lia.
    + rewrite !(bool_decide_eq_false_2 (Some tf ∈ touched)) by done. apply IH.
  - destruct (decide (None ∈ touched)) as [Hin|Hin].
    + rewrite !(bool_decide_eq_true_2 (None ∈ touched)) by done. by intros [? [=]].
    + rewrite !(bool_decide_eq_false_2 (None ∈ touched)) by done. apply IH.
Qed.

Lemma persistPackages_npkgs (infos : list (string * PackageInfo)) st :
  let r := persistPackages tk fset nm touched infos st in
  r.2 = true →
  p_npkgs r.1 = p_npkgs st +
    length (filter (λ e, touchedFiles fset touched (Files e.2) ≠ []) infos).
Proof.
  revert st. induction infos as [|e infos IH]; intros st; cbn zeta; simpl; [lia|].
  pose proof (persistFiles_npkgs (Files e.2) true st) as Hn.
  destruct (persistFiles tk fset nm touched (Files e.2) true st) as [st1 [b|]];
    simpl in *; [|done].
  intros Hr. rewrite (IH st1 Hr), Hn by eauto. rewrite filter_cons.
  destruct (decide (touchedFiles fset touched (Files e.2) ≠ [])) as [Hd|Hd].
  - rewrite bool_decide_eq_true_2 by done. simpl. lia.
  - rewrite bool_decide_eq_false_2 by done. lia.
Qed.

Lemma persistFiles_frame files first st :
  writesOnlyItsPath tk →
  let r := persistFiles tk fset nm touched files first st in
  (∀ q, q ∉ touchedFiles fset touched files →
        w_fs (p_world r.1) !! q = w_fs (p_world st) !! q) ∧
  p_nerrs st ≤ p_nerrs r.1.
Proof.
  intros Hw. revert first st. induction files as [|f files IH]; intros first st; cbn zeta.
  { simpl. split; [done|lia]. }
  rewrite touchedFiles_cons. cbn [persistFiles].
  destruct (Fset_File fset (f_Pos f)) as [tf|] eqn:Hf.
  - destruct (decide (Some tf ∈ touched)) as [Hin|Hin];
      [rewrite !(bool_decide_eq_true_2 (Some tf ∈ touched)) by done
      |rewrite !(bool_decide_eq_false_2 (Some tf ∈ touched)) by done].
    + match goal with |- context [persistFiles _ _ _ _ files false ?s] =>
        destruct (IH false s) as [IHf IHn]; set (st2 := s) in * end.
      cbn zeta in *. split.
      * intros q Hq. apply not_elem_of_cons in Hq as [Hne Hq].
        rewrite (IHf q Hq). subst st2.
        unfold rewriteFile.
        destruct (format_Node tk fset nm f) as [buf|e]; simpl.
        -- destruct first; simpl;
             destruct (ioutil_WriteFile tk (w_fs (p_world st)) (tf_Name tf) buf)
               as [fs' [e|]] eqn:Hwr; simpl;
             rewrite <- (Hw (w_fs (p_world st)) (tf_Name tf) buf q Hne);
             by rewrite Hwr.
        -- by destruct first.
      * etrans; [|apply IHn]. subst st2.
        destruct ((rewriteFile tk fset nm f (tf_Name tf) _).2), first; simpl; lia.
    + apply IH.
  - destruct (decide (None ∈ touched)) as [Hin|Hin];
      [rewrite !(bool_decide_eq_true_2 (None ∈ touched)) by done
      |rewrite !(bool_decide_eq_false_2 (None ∈ touched)) by done; apply IH].
    destruct first; simpl; split; (done || lia).
Qed.

Lemma persistFiles_written files first st :
  writesOnlyItsPath tk → writeStores tk →
  NoDup (touchedFiles fset touched files) →
  let r := persistFiles tk fset nm touched files first st in
  is_Some r.2 → p_nerrs r.1 = p_nerrs st →
  ∀ f tf, f ∈ files → Fset_File fset (f_Pos f) = Some tf → Some tf ∈ touched →
    ∃ buf, format_Node tk fset nm f = inl buf ∧
           w_fs (p_world r.1) !! tf_Name tf = Some buf.
Proof.
  intros Hw Hs. revert first st. induction files as [|f files IH]; intros first st; cbn zeta.
  { intros _ _ _ f tf Hin. by apply elem_of_nil in Hin. }
  rewrite touchedFiles_cons. cbn [persistFiles].
  destruct (Fset_File fset (f_Pos f)) as [tf|] eqn:Hf.
  - destruct (decide (Some tf ∈ touched)) as [Hin|Hin];
      [rewrite !(bool_decide_eq_true_2 (Some tf ∈ touched)) by done
      |rewrite !(bool_decide_eq_false_2 (Some tf ∈ touched)) by done].
    + intros [Hnotin Hnd]%NoDup_cons.
      match goal with |- context [persistFiles _ _ _ _ files false ?s] =>
        pose proof (IH false s Hnd) as IH';
        destruct (persistFiles_frame files false s Hw) as [Hfr Hmono];
        set (st2 := s) in * end.
      cbn zeta in *. intros Hsome Hn.
      set (res := rewriteFile tk fset nm f (tf_Name tf) _) in *.
      assert (p_nerrs st2 = p_nerrs st ∧ res.2 = None ∧
              w_fs (p_world st2) = res.1) as (Hn2 & Hres & Hfs2).
      { subst st2. destruct (res.2) as [e|] eqn:He, first; simpl in *;
          split_and!; try done; lia. }
      assert (∃ buf, format_Node tk fset nm f = inl buf ∧ res.1 !! tf_Name tf = Some buf)
        as (buf & Hfmt & Hbuf).
      { subst res. unfold rewriteFile in *.
        destruct (format_Node tk fset nm f) as [buf|e]; [|done].
        exists buf. split; [done|]. apply Hs. by destruct first. }
      intros f0 tf0 [->|Hin0]%elem_of_cons Hf0 Ht0.
      * rewrite Hf in Hf0. injection Hf0 as <-. exists buf. split; [done|].
        by rewrite (Hfr _ Hnotin), Hfs2.
      * apply IH'; [done|lia|done..].
    + intros Hnd Hsome Hn f0 tf0 [->|Hin0]%elem_of_cons Hf0 Ht0.
      * rewrite Hf in Hf0. by injection Hf0 as <-.
      * by apply (IH first st Hnd Hsome Hn f0 tf0).
  - destruct (decide (None ∈ touched)) as [Hin|Hin];
      [rewrite !(bool_decide_eq_true_2 (None ∈ touched)) by done
      |rewrite !(bool_decide_eq_false_2 (None ∈ touched)) by done];
      [by intros _ [? [=]]|].
    intros Hnd Hsome Hn f0 tf0 [->|Hin0]%elem_of_cons Hf0 Ht0; [congruence|].
    by apply (IH first st Hnd Hsome Hn f0 tf0).
Qed.

Lemma elem_of_touchedFiles files f tf :
  f ∈ files → Fset_File fset (f_Pos f) = Some tf → Some tf ∈ touched →
  tf_Name tf ∈ touchedFiles fset touched files.
Proof.
  intros Hin Hf Ht. apply list_elem_of_omap. exists f. split; [done|].
  rewrite Hf. by rewrite bool_decide_eq_true_2.
Qed.

Lemma touchedFiles_sublist files :
  touchedFiles fset touched files `sublist_of`
  omap (λ f, tf_Name <$> Fset_File fset (f_Pos f)) files.
Proof.
  induction files as [|f files IH]; [done|].
  rewrite touchedFiles_cons. cbn [omap list_omap].
  destruct (Fset_File fset (f_Pos f)) as [tf|]; simpl; [|done].
  case_bool_decide; [by apply sublist_skip|by apply sublist_cons].
Qed.

Lemma persistPackages_frame (infos : list (string * PackageInfo)) st :
  writesOnlyItsPath tk →
  let r := persistPackages tk fset nm touched infos st in
  (∀ q, q ∉ (infos ≫= λ e, touchedFiles fset touched (Files e.2)) →
        w_fs (p_world r.1) !! q = w_fs (p_world st) !! q) ∧
  p_nerrs st ≤ p_nerrs r.1.
Proof.
  intros Hw. revert st. induction infos as [|e infos IH]; intros st; cbn zeta.
  { simpl. split; [done|lia]. }
  rewrite bind_cons. cbn [persistPackages].
  destruct (persistFiles_frame (Files e.2) true st Hw) as [Hf Hn].
  destruct (persistFiles tk fset nm touched (Files e.2) true st) as [st1 [b|]];
    simpl in *.
  - destruct (IH st1) as [Hf' Hn']. split; [|lia].
    intros q Hq. apply not_elem_of_app in Hq as [Hq1 Hq2].
    by rewrite Hf', Hf.
  - split; [|done]. intros q Hq. apply not_elem_of_app in Hq as [Hq1 Hq2]. by apply Hf.
Qed.

Lemma persistPackages_written (infos : list (string * PackageInfo)) st :
  writesOnlyItsPath tk → writeStores tk →
  NoDup (infos ≫= λ e, touchedFiles fset touched (Files e.2)) →
  let r := persistPackages tk fset nm touched infos st in
  r.2 = true → p_nerrs r.1 = p_nerrs st →
  ∀ e f tf, e ∈ infos → f ∈ Files e.2 →
    Fset_File fset (f_Pos f) = Some tf → Some tf ∈ touched →
    ∃ buf, format_Node tk fset nm f = inl buf ∧
           w_fs (p_world r.1) !! tf_Name tf = Some buf.
Proof.
  intros Hw Hs. revert st. induction infos as [|e infos IH]; intros st; cbn zeta.
  { intros _ _ _ e f tf Hin. by apply elem_of_nil in Hin. }
  rewrite bind_cons. cbn [persistPackages].
  intros (Hnd1 & Hdisj & Hnd2)%NoDup_app.
  pose proof (persistFiles_written (Files e.2) true st Hw Hs Hnd1) as Hwr.
  destruct (persistFiles_frame (Files e.2) true st Hw) as [_ Hn1].
  destruct (persistFiles tk fset nm touched (Files e.2) true st) as [st1 [b|]];
    simpl in *; [|done].
  destruct (persistPackages_frame infos st1 Hw) as [Hfr Hn2].
  intros Hok Hn e0 f tf [->|Hin]%elem_of_cons Hf Hpos Ht.
  - destruct (Hwr ltac:(eauto) ltac:(lia) f tf Hf Hpos Ht) as (buf & Hfmt & Hbuf).
    exists buf. split; [done|]. rewrite Hfr; [done|].
    apply Hdisj. by apply (elem_of_touchedFiles (Files e.2) f tf).
  - apply (IH st1 Hnd2 Hok ltac:(lia) e0 f tf Hin Hf Hpos Ht).
Qed.

End disk.

(** ** Further properties of the run *)

Section further.
Variable tk : Toolkit.

Lemma persistPackages_untouched fset nm (infos : list (string * PackageInfo)) st :
  persistPackages tk fset nm ∅ infos st = (st, true).
Proof.
  assert (∀ files first, persistFiles tk fset nm ∅ files first st = (st, Some first)) as H.
  { induction files as [|f files IH]; intros first; [done|].
    cbn [persistFiles]. by rewrite bool_decide_eq_false_2 by apply not_elem_of_empty. }
  induction infos as [|e infos IH]; [done|]. simpl. by rewrite H.
Qed.

Lemma whenVerbose_fs conf e w : w_fs (whenVerbose conf e w) = w_fs w.
Proof. unfold whenVerbose. by destruct (verbose conf). Qed.

Lemma preamble_fs conf possible w : w_fs (preamble tk conf possible w) = w_fs w.
Proof. by destruct (preamble_trace tk conf possible w) as (? & _ & _ & ?). Qed.

Lemma touchedNames_sublist gprog touched :
  touchedNames gprog touched `sublist_of` fileNames gprog.
Proof.
  unfold touchedNames, fileNames. induction (Imported gprog) as [|e l IH]; [done|].
  rewrite !bind_cons. apply sublist_app; [apply touchedFiles_sublist|done].
Qed.

Lemma filesToUpdate_planned gprog plan :
  filesToUpdate (renameIdents tk gprog plan) =
  list_to_set ((λ s, Fset_File (Fset gprog) (id_Pos s.1)) <$>
               filter (planned plan) (sites gprog)).
Proof.
  apply set_eq. intros tf.
  rewrite renameIdents_sites, rename_files, elem_of_list_to_set, list_elem_of_fmap.
  simpl. rewrite elem_of_empty. split.
  - intros [[]|(s & Hs & Hp & ->)]. exists s. split; [done|].
    by apply list_elem_of_filter.
  - intros (s & -> & [Hp Hs]%list_elem_of_filter). right. by exists s.
Qed.

(** The disk and the last line after the part of [runMain] that
    follows the second load. *)
Lemma unexportLoaded_disk conf gprog w :
  writesOnlyItsPath tk →
  let r := unexportLoaded tk conf gprog w in
  let rn := renameIdents tk gprog (renamePlan tk gprog (importPath conf)) in
  (∀ q, q ∉ touchedNames gprog (filesToUpdate rn) → w_fs r.1 !! q = w_fs w !! q) ∧
  (writeStores tk → NoDup (fileNames gprog) → r.2 = Success →
   ∀ e f tf, e ∈ Imported gprog → f ∈ Files e.2 →
     Fset_File (Fset gprog) (f_Pos f) = Some tf → Some tf ∈ filesToUpdate rn →
     ∃ buf, format_Node tk (Fset gprog) (names rn) f = inl buf ∧
            w_fs r.1 !! tf_Name tf = Some buf).
Proof.
  intros Hw. cbn zeta. unfold unexportLoaded, renamePlan.
  destruct (findExportedObjects tk gprog (importPath conf)) as [objects|];
    [|split; [done|by intros]].
  cbn zeta. set (rn := renameIdents tk gprog (objsToUpdate gprog objects)).
  set (w2 := whenVerbose conf (SafeIdents _) _).
  assert (w_fs w2 = w_fs w) as Hfs2 by (subst w2; by rewrite !whenVerbose_fs).
  destruct (persistPackages_frame tk (Fset gprog) (names rn) (filesToUpdate rn)
              (Imported gprog) (mkPersistState w2 0 0) Hw) as [Hfr Hmono].
  pose proof (persistPackages_written tk (Fset gprog) (names rn) (filesToUpdate rn)
                (Imported gprog) (mkPersistState w2 0 0) Hw) as Hwr.
  destruct (persistPackages _ _ _ _ _ _) as [ps [|]]; simpl in *.
  - split.
    + intros q Hq. case_bool_decide; simpl; by rewrite (Hfr q Hq), Hfs2.
    + intros Hs Hnd. case_bool_decide as Hn; simpl; [by intros ?|].
      intros _ e f tf He Hf Hpos Ht.
      assert (NoDup (touchedNames gprog (filesToUpdate rn))) as Hnd'
        by (eapply sublist_NoDup; [exact Hnd|apply touchedNames_sublist]).
      assert (p_nerrs ps = 0) as Hz by lia.
      exact (Hwr Hs Hnd' eq_refl Hz e f tf He Hf Hpos Ht).
  - split; [|by intros]. intros q Hq. by rewrite (Hfr q Hq), Hfs2.
Qed.

Lemma unexportLoaded_summary conf gprog w :
  let r := unexportLoaded tk conf gprog w in
  let rn := renameIdents tk gprog (renamePlan tk gprog (importPath conf)) in
  r.2 ≠ Panicked →
  last (w_out r.1) =
  Some (LogLine (summary (nidents rn) (size (filesToUpdate rn))
                         (touchedPackages gprog (filesToUpdate rn)))).
Proof.
  cbn zeta. unfold unexportLoaded, renamePlan.
  destruct (findExportedObjects tk gprog (importPath conf)) as [objects|]; [|done].
  cbn zeta. set (rn := renameIdents tk gprog (objsToUpdate gprog objects)).
  set (w2 := whenVerbose conf (SafeIdents _) _).
  pose proof (persistPackages_npkgs tk (Fset gprog) (names rn) (filesToUpdate rn)
                (Imported gprog) (mkPersistState w2 0 0)) as Hn.
  destruct (persistPackages _ _ _ _ _ _) as [ps [|]]; simpl in *; [|done].
  intros _. rewrite Hn by done.
  case_bool_decide; simpl; by rewrite last_snoc.
Qed.

End further.

Lemma Workspace_writesOnlyItsPath ws : writesOnlyItsPath (Workspace.toolkit ws).
Proof.
  intros fs filename data q Hne. simpl. unfold Workspace.WriteFile.
  case_bool_decide; simpl; [done|]. by rewrite lookup_insert_ne.
Qed.

Lemma Workspace_writeStores ws : writeStores (Workspace.toolkit ws).
Proof.
  intros fs filename data. simpl. unfold Workspace.WriteFile.
  case_bool_decide; simpl; [done|]. intros _. apply lookup_insert_eq.
Qed.

(** X9.  A run that gets through both loads and finds no site bound
    to an object of the plan renames nothing, calls [rewriteFile] for
    no file, leaves the disk as it was, reports zero occurrences,
    files and packages and succeeds. *)
Theorem X9_no_planned_site_nothing_written tk conf w possible gprog :
  fullLoad tk conf = Some (possible, gprog) →
  is_Some (findExportedObjects tk gprog (importPath conf)) →
  (∀ s, s ∈ sites gprog → ¬ planned (renamePlan tk gprog (importPath conf)) s) →
  let r := runMain tk conf w in
  r.2 = Success ∧ w_fs r.1 = w_fs w ∧
  rewrites (w_out r.1) = rewrites (w_out w) ∧
  renamedNames tk gprog (importPath conf) = Names gprog ∧
  last (w_out r.1) =
    Some (LogLine "Unexported 0 occurrences in 0 files in 0 packages.").
Proof.
  intros Hl [objects Hf] Hno. cbn zeta.
  rewrite (runMain_fullLoad tk conf w possible gprog Hl).
  unfold renamedNames. rewrite (renameIdents_unplanned tk gprog _ Hno).
  unfold renamePlan in Hno. unfold unexportLoaded. rewrite Hf in *. cbn zeta.
  rewrite (renameIdents_unplanned tk gprog _ Hno). cbn [names filesToUpdate nidents].
  rewrite persistPackages_untouched. simpl.
  destruct (preamble_trace tk conf possible w) as (p0 & Ho0 & Hr0 & Hfs0).
  destruct (whenVerbose_trace conf (ExportedIdents objects.*2)
              (preamble tk conf possible w)) as (p1 & Ho1 & Hr1 & _); [done|].
  destruct (whenVerbose_trace conf (SafeIdents (elements (objsToUpdate gprog objects)))
              (whenVerbose conf (ExportedIdents objects.*2) (preamble tk conf possible w)))
    as (p2 & Ho2 & Hr2 & _); [done|].
  split_and!; [done| |  |done|by rewrite last_snoc].
  - by rewrite !whenVerbose_fs.
  - rewrite Ho2, Ho1, Ho0, !rewrites_app, Hr0, Hr1, Hr2. simpl. by rewrite !app_nil_r.
Qed.

(** X9 on the package that uses its only exported object itself. *)
Lemma X9_witness :
  let ws := Workspace.internalUse in
  let tk := Workspace.toolkit ws in
  let conf := configOf (Workspace.flagsFor "" false) in
  let gprog := Workspace.program ws {[ "a" ]} in
  let r := runMain tk conf (Workspace.start ws) in
  fullLoad tk conf = Some ({[ "a" ]}, gprog) ∧
  r.2 = Success ∧ w_fs r.1 = w_fs (Workspace.start ws) ∧
  rewrites (w_out r.1) = rewrites (w_out (Workspace.start ws)) ∧
  renamedNames tk gprog (importPath conf) = Names gprog ∧
  last (w_out r.1) =
    Some (LogLine "Unexported 0 occurrences in 0 files in 0 packages.").
Proof.
  assert (fullLoad (Workspace.toolkit Workspace.internalUse)
            (configOf (Workspace.flagsFor "" false)) =
          Some ({[ "a" ]}, Workspace.program Workspace.internalUse {[ "a" ]})) as Hl
    by (vm_compute; reflexivity).
  split; [exact Hl|].
  apply (X9_no_planned_site_nothing_written _ _ (Workspace.start Workspace.internalUse)
           _ _ Hl).
  - by eexists.
  - intros s _ (o & _ & Ho).
    assert (renamePlan (Workspace.toolkit Workspace.internalUse)
              (Workspace.program Workspace.internalUse {[ "a" ]})
              (importPath (configOf (Workspace.flagsFor "" false))) = ∅) as He
      by (vm_compute; reflexivity).
    rewrite He in Ho. by apply elem_of_empty in Ho.
Defined.

(** X10.  In a run that gets through both loads and returns, the
    summary line gives the number of sites bound to an object of the
    plan, the number of different files those sites lie in, and the
    number of imported packages with such a file among their files. *)
Theorem X10_summary_counts tk conf w possible gprog :
  fullLoad tk conf = Some (possible, gprog) →
  filesResolve gprog →
  is_Some (findExportedObjects tk gprog (importPath conf)) →
  let plan := renamePlan tk gprog (importPath conf) in
  let files : gset (option TokenFile) :=
    list_to_set ((λ s, Fset_File (Fset gprog) (id_Pos s.1)) <$>
                 filter (planned plan) (sites gprog)) in
  last (w_out (runMain tk conf w).1) =
  Some (LogLine (summary (length (filter (planned plan) (sites gprog)))
                         (size files) (touchedPackages gprog files))).
Proof.
  intros Hl Hres Hobj. cbn zeta.
  rewrite (runMain_fullLoad tk conf w possible gprog Hl).
  rewrite unexportLoaded_summary.
  - rewrite filesToUpdate_planned. do 3 f_equal.
    by rewrite renameIdents_sites, rename_nidents.
  - rewrite unexportLoaded_panics by done. by destruct Hobj as [? ->].
Qed.

(** X10 on the workspace where [b] imports [a] without using [Foo]. *)
Lemma X10_witness :
  let ws := Scenario.importerWithoutUse ∅ in
  let tk := Workspace.toolkit ws in
  let conf := configOf (Workspace.flagsFor "" false) in
  let gprog := Workspace.program ws {[ "a"; "b" ]} in
  let plan := renamePlan tk gprog (importPath conf) in
  let files : gset (option TokenFile) :=
    list_to_set ((λ s, Fset_File (Fset gprog) (id_Pos s.1)) <$>
                 filter (planned plan) (sites gprog)) in
  fullLoad tk conf = Some ({[ "a"; "b" ]}, gprog) ∧
  filesResolve gprog ∧
  last (w_out (runMain tk conf (Workspace.start ws)).1) =
  Some (LogLine (summary (length (filter (planned plan) (sites gprog)))
                         (size files) (touchedPackages gprog files))).
Proof.
  assert (fullLoad (Workspace.toolkit (Scenario.importerWithoutUse ∅))
            (configOf (Workspace.flagsFor "" false)) =
          Some ({[ "a"; "b" ]},
                Workspace.program (Scenario.importerWithoutUse ∅) {[ "a"; "b" ]})) as Hl
    by (vm_compute; reflexivity).
  assert (filesResolve (Workspace.program (Scenario.importerWithoutUse ∅) {[ "a"; "b" ]}))
    as Hres by (unfold filesResolve; simpl; repeat constructor; by eexists).
  split_and!; [exact Hl|exact Hres|].
  apply (X10_summary_counts _ _ (Workspace.start (Scenario.importerWithoutUse ∅))
           _ _ Hl Hres).
  by eexists.
Defined.

(** X11.  When [ioutil.WriteFile] changes no path but its own, a run
    leaves every path that is not the name of a touched file of the
    loaded packages with the content it had. *)
Theorem X11_other_paths_unchanged tk conf w q :
  writesOnlyItsPath tk →
  (∀ possible gprog, fullLoad tk conf = Some (possible, gprog) →
     q ∉ touchedNames gprog
           (filesToUpdate (renameIdents tk gprog
                             (renamePlan tk gprog (importPath conf))))) →
  w_fs (runMain tk conf w).1 !! q = w_fs w !! q.
Proof.
  intros Hw Hq. destruct (fullLoad tk conf) as [[possible gprog]|] eqn:Hl.
  - rewrite (runMain_fullLoad tk conf w possible gprog Hl).
    destruct (unexportLoaded_disk tk conf gprog (preamble tk conf possible w) Hw)
      as [Hfr _].
    rewrite Hfr by eauto. by rewrite preamble_fs.
  - by destruct (runMain_noLoad tk conf w Hl) as (_ & _ & _ & -> & _).
Qed.

(** X11 for [b.go], which holds no occurrence of [Foo]. *)
Lemma X11_witness :
  let ws := Scenario.importerWithoutUse ∅ in
  let tk := Workspace.toolkit ws in
  let conf := configOf (Workspace.flagsFor "" false) in
  let w := Workspace.start ws in
  writesOnlyItsPath tk ∧
  w_fs w !! "b.go" = Some "b Run" ∧
  w_fs (runMain tk conf w).1 !! "b.go" = w_fs w !! "b.go".
Proof.
  split_and!; [apply Workspace_writesOnlyItsPath|by vm_compute|].
  apply (X11_other_paths_unchanged (Workspace.toolkit (Scenario.importerWithoutUse ∅)));
    [apply Workspace_writesOnlyItsPath|].
  intros possible gprog H. vm_compute in H. injection H as _ Hg. subst gprog.
  vm_compute. by intros ?%list_elem_of_singleton.
Defined.

(** X12.  When [ioutil.WriteFile] changes no path but its own and
    stores the data on success, and the files of the loaded packages
    have different names, a run that succeeds leaves in every touched
    file the text [format.Node] prints for its tree with the renamed
    identifiers. *)
Theorem X12_success_stores_printed_trees tk conf w possible gprog e f tf :
  writesOnlyItsPath tk → writeStores tk →
  fullLoad tk conf = Some (possible, gprog) →
  NoDup (fileNames gprog) →
  (runMain tk conf w).2 = Success →
  e ∈ Imported gprog → f ∈ Files e.2 →
  Fset_File (Fset gprog) (f_Pos f) = Some tf →
  Some tf ∈ filesToUpdate (renameIdents tk gprog
                             (renamePlan tk gprog (importPath conf))) →
  ∃ buf, format_Node tk (Fset gprog) (renamedNames tk gprog (importPath conf)) f
           = inl buf ∧
         w_fs (runMain tk conf w).1 !! tf_Name tf = Some buf.
Proof.
  intros Hw Hs Hl Hnd. rewrite (runMain_fullLoad tk conf w possible gprog Hl).
  intros Hok He Hf Hpos Ht.
  destruct (unexportLoaded_disk tk conf gprog (preamble tk conf possible w) Hw)
    as [_ Hwr].
  exact (Hwr Hs Hnd Hok e f tf He Hf Hpos Ht).
Qed.

(** X12 for [a.go], where [Foo] is defined and used. *)
Lemma X12_witness :
  let ws := Scenario.importerWithoutUse ∅ in
  let tk := Workspace.toolkit ws in
  let conf := configOf (Workspace.flagsFor "" false) in
  let gprog := Workspace.program ws {[ "a"; "b" ]} in
  let w := Workspace.start ws in
  let f := mkAstFile 1 [Workspace.idPkgA; Workspace.idFoo; Workspace.idFooInA] in
  (runMain tk conf w).2 = Success ∧
  w_fs w !! "a.go" = Some "a Foo Foo" ∧
  ∃ buf, format_Node tk (Fset gprog) (renamedNames tk gprog (importPath conf)) f
           = inl buf ∧
         w_fs (runMain tk conf w).1 !! "a.go" = Some buf.
Proof.
  assert ((runMain (Workspace.toolkit (Scenario.importerWithoutUse ∅))
             (configOf (Workspace.flagsFor "" false))
             (Workspace.start (Scenario.importerWithoutUse ∅))).2 = Success) as Hok
    by (vm_compute; reflexivity).
  split_and!; [exact Hok|by vm_compute|].
  apply (X12_success_stores_printed_trees
           (Workspace.toolkit (Scenario.importerWithoutUse ∅))
           (configOf (Workspace.flagsFor "" false))
           (Workspace.start (Scenario.importerWithoutUse ∅))
           {[ "a"; "b" ]}
           (Workspace.program (Scenario.importerWithoutUse ∅) {[ "a"; "b" ]})
           ("a", mkPackageInfo Workspace.pkgA
                   [mkAstFile 1 [Workspace.idPkgA; Workspace.idFoo; Workspace.idFooInA]]
                   [(Workspace.idPkgA, None); (Workspace.idFoo, Some Workspace.Foo)]
                   [(Workspace.idFooInA, Workspace.Foo)])
           _ Workspace.a_go).
  - apply Workspace_writesOnlyItsPath.
  - apply Workspace_writeStores.
  - vm_compute; reflexivity.
  - refine (bool_decide_unpack _ _). vm_compute. exact I.
  - exact Hok.
  - vm_compute. by left.
  - by left.
  - reflexivity.
  - refine (bool_decide_unpack _ _). vm_compute. exact I.
Defined.

(** ** Diagnostics *)

Section diagnostics.
Variable tk : Toolkit.

Lemma core_app l k : core (l ++ k) = core l ++ core k.
Proof. apply filter_app. Qed.

Lemma core_scanEvents errs : core (scanEvents errs) = [].
Proof.
  destruct errs as [|e errs]; [done|]. unfold scanEvents, core.
  rewrite filter_cons_False by (simpl; tauto).
  induction (e :: errs) as [|x l IH]; [done|]. rewrite fmap_cons.
  by rewrite filter_cons_False by (simpl; tauto).
Qed.

Lemma reportScanErrors_shape w :
  reportScanErrors tk w =
  mkWorld (w_fs w) (w_out w ++ scanEvents (importgraph_errors tk)).
Proof.
  unfold reportScanErrors, scanEvents.
  assert (∀ (l : list (string * string)) w0,
    foldl (λ acc e, emit (ScanError e.1 e.2) acc) w0 l =
    mkWorld (w_fs w0) (w_out w0 ++ ((λ e, ScanError e.1 e.2) <$> l))) as H.
  { induction l as [|e l IH]; intros w0; simpl.
    - rewrite app_nil_r. by destruct w0.
    - rewrite IH. simpl. by rewrite <- app_assoc. }
  destruct (importgraph_errors tk) as [|e l].
  - rewrite app_nil_r. by destruct w.
  - rewrite H. simpl. by rewrite <- app_assoc.
Qed.

Lemma persistFiles_appends fset nm touched files first fs0 nerrs npkgs :
  ∃ evs fs' n' k' flag, core evs = evs ∧
    ∀ out, persistFiles tk fset nm touched files first
             (mkPersistState (mkWorld fs0 out) nerrs npkgs) =
           (mkPersistState (mkWorld fs' (out ++ evs)) n' k', flag).
Proof.
  revert first fs0 nerrs npkgs.
  induction files as [|f files IH]; intros first fs0 nerrs npkgs.
  { exists [], fs0, nerrs, npkgs, (Some first). split; [done|].
    intros out. simpl. by rewrite app_nil_r. }
  cbn [persistFiles].
  destruct (Fset_File fset (f_Pos f)) as [tf|] eqn:Hf.
  - destruct (decide (Some tf ∈ touched)) as [Hin|Hin].
    + set (k1 := if first then S npkgs else npkgs).
      set (res := rewriteFile tk fset nm f (tf_Name tf) fs0).
      destruct (res.2) as [e|] eqn:He.
      * destruct (IH false res.1 (S nerrs) k1) as (evs & fs' & n' & k' & flag & Hc & Heq).
        exists ([Rewrite (tf_Name tf) (Some e); LogError e] ++ evs), fs', n', k', flag.
        split; [by rewrite core_app, Hc|].
        intros out. rewrite bool_decide_eq_true_2 by done.
        destruct first; simpl; fold res; rewrite He; unfold emit; simpl;
          rewrite Heq; by rewrite <- !app_assoc.
      * destruct (IH false res.1 nerrs k1) as (evs & fs' & n' & k' & flag & Hc & Heq).
        exists ([Rewrite (tf_Name tf) None] ++ evs), fs', n', k', flag.
        split; [by rewrite core_app, Hc|].
        intros out. rewrite bool_decide_eq_true_2 by done.
        destruct first; simpl; fold res; rewrite He; unfold emit; simpl;
          rewrite Heq; by rewrite <- !app_assoc.
    + destruct (IH first fs0 nerrs npkgs) as (evs & fs' & n' & k' & flag & Hc & Heq).
      exists evs, fs', n', k', flag. split; [done|].
      intros out. by rewrite bool_decide_eq_false_2 by done.
  - destruct (decide (None ∈ touched)) as [Hin|Hin].
    + exists [], fs0, nerrs, (if first then S npkgs else npkgs), None.
      split; [done|]. intros out. rewrite bool_decide_eq_true_2 by done.
      rewrite app_nil_r. by destruct first.
    + destruct (IH first fs0 nerrs npkgs) as (evs & fs' & n' & k' & flag & Hc & Heq).
      exists evs, fs', n', k', flag. split; [done|].
      intros out. by rewrite bool_decide_eq_false_2 by done.
Qed.

Lemma persistPackages_appends fset nm touched (infos : list (string * PackageInfo))
    fs0 nerrs npkgs :
  ∃ evs fs' n' k' flag, core evs = evs ∧
    ∀ out, persistPackages tk fset nm touched infos
             (mkPersistState (mkWorld fs0 out) nerrs npkgs) =
           (mkPersistState (mkWorld fs' (out ++ evs)) n' k', flag).
Proof.
  revert fs0 nerrs npkgs. induction infos as [|e infos IH]; intros fs0 nerrs npkgs.
  { exists [], fs0, nerrs, npkgs, true. split; [done|].
    intros out. simpl. by rewrite app_nil_r. }
  destruct (persistFiles_appends fset nm touched (Files e.2) true fs0 nerrs npkgs)
    as (evs1 & fs1 & n1 & k1 & [b|] & Hc1 & Heq1).
  - destruct (IH fs1 n1 k1) as (evs2 & fs2 & n2 & k2 & flag & Hc2 & Heq2).
    exists (evs1 ++ evs2), fs2, n2, k2, flag. split; [by rewrite core_app, Hc1, Hc2|].
    intros out. cbn [persistPackages]. rewrite Heq1, Heq2. by rewrite <- app_assoc.
  - exists evs1, fs1, n1, k1, false. split; [done|].
    intros out. cbn [persistPackages]. by rewrite Heq1.
Qed.

End diagnostics.

Section shapes.
Variable tk : Toolkit.

Lemma unexportLoaded_shape path gprog fs0 :
  ∃ fs' oc evs, core evs = evs ∧
    ∀ ids dry v out, ∃ d, core d = [] ∧
      unexportLoaded tk (mkConfig path ids dry v) gprog (mkWorld fs0 out) =
      (mkWorld fs' (out ++ d ++ evs), oc).
Proof.
  unfold unexportLoaded. cbn [importPath].
  destruct (findExportedObjects tk gprog path) as [objects|].
  2:{ exists fs0, Panicked, []. split; [done|]. intros _ _ _ out. exists [].
      split; [done|]. by rewrite !app_nil_r. }
  cbn zeta. set (plan := objsToUpdate gprog objects).
  set (rn := renameIdents tk gprog plan).
  destruct (persistPackages_appends tk (Fset gprog) (names rn) (filesToUpdate rn)
              (Imported gprog) fs0 0 0) as (evs & fs' & n' & k' & flag & Hc & Heq).
  destruct flag.
  - exists fs', (if bool_decide (0 < n') then Failure (ErrRewrite n') else Success),
      (evs ++ [LogLine (summary (nidents rn) (size (filesToUpdate rn)) k')]).
    split; [by rewrite core_app, Hc|].
    intros ids dry v out.
    exists (if v then [ExportedIdents objects.*2; SafeIdents (elements plan)] else []).
    split; [by destruct v|].
    unfold whenVerbose. cbn [verbose].
    destruct v; unfold emit; cbn [w_fs w_out]; rewrite Heq; cbn [p_world p_nerrs p_npkgs];
      case_bool_decide; cbn [w_fs w_out]; by rewrite <- ?app_assoc.
  - exists fs', Panicked, evs. split; [done|].
    intros ids dry v out.
    exists (if v then [ExportedIdents objects.*2; SafeIdents (elements plan)] else []).
    split; [by destruct v|].
    unfold whenVerbose. cbn [verbose].
    destruct v; unfold emit; cbn [w_fs w_out]; rewrite Heq; cbn [p_world];
      by rewrite <- ?app_assoc.
Qed.

Lemma runMain_shape path fs0 :
  ∃ fs' oc evs, core evs = evs ∧
    ∀ errs ids dry v out, ∃ d, core d = [] ∧
      runMain (withScanErrors tk errs) (mkConfig path ids dry v) (mkWorld fs0 out) =
      (mkWorld fs' (out ++ d ++ evs), oc).
Proof.
  assert (∀ (fs : FS) (oc : outcome), ∃ fs' oc' evs, core evs = evs ∧
            ∀ (errs : list (string * string)) (ids : list string) (dry v : bool) out,
              ∃ d, core d = [] ∧
                (mkWorld fs out, oc) = (mkWorld fs' (out ++ d ++ evs), oc')) as Hstop.
  { intros fs oc. exists fs, oc, []. split; [done|]. intros _ _ _ _ out. exists [].
    split; [done|]. by rewrite !app_nil_r. }
  unfold runMain. cbn [importPath]. case_bool_decide as Hp; [apply Hstop|].
  cbn zeta. unfold loadProgram.
  change (∃ fs' oc evs, core evs = evs ∧
    ∀ errs ids dry v out, ∃ d, core d = [] ∧
      match loader_Load tk {[ path ]} with
      | inl prog =>
          match findExportedObjects tk prog path with
          | Some objs =>
              match loader_Load tk (possiblePackages tk objs) with
              | inl globalProg =>
                  unexportLoaded tk (mkConfig path ids dry v) globalProg
                    (whenVerbose (mkConfig path ids dry v)
                       (PossiblePackages (elements (possiblePackages tk objs)))
                       (reportScanErrors (withScanErrors tk errs) (mkWorld fs0 out)))
              | inr err =>
                  (whenVerbose (mkConfig path ids dry v)
                     (PossiblePackages (elements (possiblePackages tk objs)))
                     (reportScanErrors (withScanErrors tk errs) (mkWorld fs0 out)),
                   Failure (ErrLoad err))
              end
          | None => (reportScanErrors (withScanErrors tk errs) (mkWorld fs0 out), Panicked)
          end
      | inr err => (mkWorld fs0 out, Failure (ErrLoad err))
      end = (mkWorld fs' (out ++ d ++ evs), oc)).
  destruct (loader_Load tk {[ path ]}) as [prog|err]; [|apply Hstop].
  destruct (findExportedObjects tk prog path) as [objs|].
  2:{ exists fs0, Panicked, []. split; [done|]. intros errs _ _ _ out.
      exists (scanEvents errs). split; [apply core_scanEvents|].
      rewrite reportScanErrors_shape. simpl. by rewrite app_nil_r. }
  set (pp := PossiblePackages (elements (possiblePackages tk objs))).
  destruct (loader_Load tk (possiblePackages tk objs)) as [gprog|err].
  - destruct (unexportLoaded_shape path gprog fs0) as (fs' & oc & evs & Hc & Heq).
    exists fs', oc, evs. split; [done|]. intros errs ids dry v out.
    rewrite reportScanErrors_shape. cbn [w_fs w_out importgraph_errors withScanErrors].
    destruct (Heq ids dry v (out ++ scanEvents errs ++ (if v then [pp] else [])))
      as (d & Hd & Heq').
    exists (scanEvents errs ++ (if v then [pp] else []) ++ d). split.
    + rewrite !core_app, core_scanEvents, Hd. by destruct v.
    + unfold whenVerbose. cbn [verbose].
      destruct v; unfold emit; cbn [w_fs w_out];
        rewrite ?app_nil_r in Heq'; rewrite <- ?app_assoc in *; rewrite Heq';
        by rewrite <- ?app_assoc.
  - exists fs0, (Failure (ErrLoad err)), []. split; [done|].
    intros errs ids dry v out. rewrite reportScanErrors_shape.
    cbn [w_fs w_out importgraph_errors withScanErrors].
    exists (scanEvents errs ++ (if v then [pp] else [])). split.
    + rewrite core_app, core_scanEvents. by destruct v.
    + unfold whenVerbose. cbn [verbose].
      destruct v; unfold emit; cbn [w_fs w_out]; by rewrite ?app_nil_r, <- ?app_assoc.
Qed.

End shapes.

(** X13.  Neither the verbose flag nor the scan errors of the import
    graph change what a run does: its outcome, the disk it leaves and
    its trace without the diagnostics are those of the quiet run
    without scan errors. *)
Theorem X13_diagnostics_do_not_interfere tk errs conf v w :
  let loud := runMain (withScanErrors tk errs) (withVerbose conf v) w in
  let quiet := runMain (withScanErrors tk []) (withVerbose conf false) w in
  loud.2 = quiet.2 ∧ w_fs loud.1 = w_fs quiet.1 ∧
  core (w_out loud.1) = core (w_out quiet.1).
Proof.
  cbn zeta. unfold withVerbose. destruct w as [fs0 out].
  destruct (runMain_shape tk (importPath conf) fs0) as (fs' & oc & evs & Hc & Heq).
  destruct (Heq errs (identifiers conf) (dryRun conf) v out) as (d1 & Hd1 & ->).
  destruct (Heq [] (identifiers conf) (dryRun conf) false out) as (d0 & Hd0 & ->).
  simpl. split_and!; [done..|]. by rewrite !core_app, Hd1, Hd0.
Qed.

(** X14.  Once the first load has returned a program, the run prints
    the scan errors of the import graph before anything else: the
    header and one line for each error, nothing when there is none. *)
Theorem X14_scan_errors_are_printed_first tk conf w prog :
  importPath conf ≠ "" →
  loader_Load tk {[ importPath conf ]} = inl prog →
  ∃ rest, w_out (runMain tk conf w).1 =
          w_out w ++ scanEvents (importgraph_errors tk) ++ rest.
Proof.
  intros Hp Hl. unfold runMain, loadProgram.
  rewrite bool_decide_eq_false_2 by done. cbn zeta. rewrite Hl.
  rewrite reportScanErrors_shape.
  set (w1 := mkWorld (w_fs w) (w_out w ++ scanEvents (importgraph_errors tk))).
  destruct (findExportedObjects tk prog (importPath conf)) as [objs|].
  2:{ exists []. simpl. by rewrite app_nil_r. }
  destruct (whenVerbose_trace conf
              (PossiblePackages (elements (possiblePackages tk objs))) w1)
    as (p & Ho & _ & _); [done|].
  destruct (loader_Load tk (possiblePackages tk objs)) as [gprog|err].
  - destruct (unexportLoaded_trace tk conf gprog
                (whenVerbose conf (PossiblePackages (elements (possiblePackages tk objs))) w1))
      as (pre & rs & tail & Ho' & _).
    exists (p ++ pre ++ persistEvents rs ++ tail).
    rewrite Ho', Ho. simpl. by rewrite <- !app_assoc.
  - exists p. simpl. rewrite Ho. simpl. by rewrite <- !app_assoc.
Qed.

(** X14 with one scan error. *)
Lemma X14_witness :
  let tk := withScanErrors (Workspace.toolkit (Workspace.unused ∅))
                           [("c", "no buildable Go source files")] in
  let conf := configOf (Workspace.flagsFor "" false) in
  let w := Workspace.start (Workspace.unused ∅) in
  importPath conf ≠ "" ∧
  loader_Load tk {[ importPath conf ]} =
    inl (Workspace.program (Workspace.unused ∅) {[ "a" ]}) ∧
  ∃ rest, w_out (runMain tk conf w).1 =
          w_out w ++ [ScanHeader; ScanError "c" "no buildable Go source files"] ++ rest.
Proof.
  assert (importPath (configOf (Workspace.flagsFor "" false)) ≠ "") as Hp by done.
  assert (loader_Load
            (withScanErrors (Workspace.toolkit (Workspace.unused ∅))
                            [("c", "no buildable Go source files")])
            {[ importPath (configOf (Workspace.flagsFor "" false)) ]} =
          inl (Workspace.program (Workspace.unused ∅) {[ "a" ]})) as Hl
    by (vm_compute; reflexivity).
  split_and!; [exact Hp|exact Hl|].
  exact (X14_scan_errors_are_printed_first _ _ (Workspace.start (Workspace.unused ∅)) _ Hp Hl).
Defined.

(** X15.  The earlier [runMain] never changes the disk.  On a path
    that is not empty the later [runMain], in verbose mode, ends as the
    earlier one where that one fails or panics, and where that one
    returns nil it reports the same scan errors and the same three
    lists (two of them through the log instead of standard output) and
    goes on with the calls of [rewriteFile] and the summary. *)
Theorem X15_later_run_extends_earlier tk path ids dry w :
  path ≠ "" →
  let early := Earlier.runMain tk path w in
  let late := runMain tk (mkConfig path ids dry true) w in
  w_fs early.1 = w_fs w ∧
  (early.2 ≠ Success → late = early) ∧
  (early.2 = Success →
     ∃ rs tail, w_out late.1 = w_out early.1 ++ persistEvents rs ++ tail ∧
                rewrites tail = []).
Proof.
  intros Hp. cbn zeta. unfold Earlier.runMain, runMain. cbn [importPath].
  rewrite bool_decide_eq_false_2 by done. cbn zeta.
  destruct (loadProgram tk {[ path ]}) as [prog|err]; [|by split_and!].
  rewrite reportScanErrors_shape.
  destruct (findExportedObjects tk prog path) as [objs|]; [|by split_and!].
  unfold whenVerbose at 1 2. cbn [verbose].
  destruct (loadProgram tk (possiblePackages tk objs)) as [gprog|err]; [|by split_and!].
  unfold unexportLoaded. cbn [importPath].
  destruct (findExportedObjects tk gprog path) as [objects|]; [|by split_and!].
  cbn zeta. unfold whenVerbose. cbn [verbose].
  set (rn := renameIdents tk gprog (objsToUpdate gprog objects)).
  match goal with |- context [persistPackages _ _ _ _ _ ?s] =>
    destruct (persistPackages_trace tk (Fset gprog) (names rn) (filesToUpdate rn)
                (Imported gprog) s) as (rs & Ho & _); set (st0 := s) in * end.
  split_and!; [done|done|]. intros _.
  destruct (persistPackages _ _ _ _ _ st0) as [ps [|]]; simpl in Ho.
  - exists rs, [LogLine (summary (nidents rn) (size (filesToUpdate rn)) (p_npkgs ps))].
    split; [|done]. case_bool_decide; simpl; rewrite Ho; by rewrite <- !app_assoc.
  - exists rs, []. split; [|done]. simpl. rewrite Ho. by rewrite app_nil_r.
Qed.

(** X15 on the workspace where [b] imports [a] without using [Foo]. *)
Lemma X15_witness :
  let ws := Scenario.importerWithoutUse ∅ in
  let tk := Workspace.toolkit ws in
  let w := Workspace.start ws in
  let early := Earlier.runMain tk "a" w in
  let late := runMain tk (mkConfig "a" [""] false true) w in
  early.2 = Success ∧
  w_fs early.1 = w_fs w ∧
  (early.2 ≠ Success → late = early) ∧
  (early.2 = Success →
     ∃ rs tail, w_out late.1 = w_out early.1 ++ persistEvents rs ++ tail ∧
                rewrites tail = []).
Proof.
  split; [by vm_compute|].
  by apply (X15_later_run_extends_earlier
              (Workspace.toolkit (Scenario.importerWithoutUse ∅)) "a" [""] false
              (Workspace.start (Scenario.importerWithoutUse ∅))).
Defined.

(** X16.  When the positions of the files of a loaded program lie in
    its file set, a run panics exactly when a load returned a program
    that holds no package of the target path: the first load, or the
    second one (as it does when the set of possible packages misses
    the target). *)
Theorem X16_run_panics_iff_target_not_loaded tk conf w :
  (∀ possible gprog, fullLoad tk conf = Some (possible, gprog) →
                     filesResolve gprog) →
  (runMain tk conf w).2 = Panicked ↔
  importPath conf ≠ "" ∧
  ∃ prog, loader_Load tk {[ importPath conf ]} = inl prog ∧
    ((∀ e, e ∈ AllPackages prog → pkg_Path e.1 ≠ importPath conf) ∨
     ∃ objs gprog,
       findExportedObjects tk prog (importPath conf) = Some objs ∧
       loader_Load tk (possiblePackages tk objs) = inl gprog ∧
       ∀ e, e ∈ AllPackages gprog → pkg_Path e.1 ≠ importPath conf).
Proof.
  intros Hres.
  pose proof (λ prog, proj1 (findExportedObjects_cases tk prog (importPath conf))) as Hnone.
  destruct (fullLoad tk conf) as [[possible gprog]|] eqn:Hl.
  - rewrite (runMain_fullLoad tk conf w possible gprog Hl).
    rewrite unexportLoaded_panics by eauto. rewrite Hnone.
    revert Hl. unfold fullLoad, loadProgram. case_bool_decide as Hp; [done|].
    destruct (loader_Load tk {[ importPath conf ]}) as [prog|] eqn:Hl1; [|done].
    destruct (findExportedObjects tk prog (importPath conf)) as [objs|] eqn:Hf; [|done].
    destruct (loader_Load tk (possiblePackages tk objs)) as [g|] eqn:Hl2; [|done].
    intros [= <- <-]. split.
    + intros Hg. split; [done|]. exists prog. split; [done|]. right. by exists objs, g.
    + intros (_ & prog' & Heq & [Hno|(objs' & g' & Hf' & Hl2' & Hg)]);
        injection Heq as <-.
      * apply Hnone in Hno. congruence.
      * rewrite Hf in Hf'. injection Hf' as <-.
        rewrite Hl2 in Hl2'. by injection Hl2' as <-.
  - revert Hl. unfold fullLoad, runMain, loadProgram. case_bool_decide as Hp.
    { intros _. split; [done|by intros [? _]]. }
    cbn zeta.
    destruct (loader_Load tk {[ importPath conf ]}) as [prog|] eqn:Hl1.
    2:{ intros _. split; [done|]. by intros (_ & ? & Heq & _). }
    destruct (findExportedObjects tk prog (importPath conf)) as [objs|] eqn:Hf.
    2:{ intros _. split; [|done]. intros _. split; [done|]. exists prog.
        split; [done|]. left. by apply Hnone. }
    destruct (loader_Load tk (possiblePackages tk objs)) as [g|] eqn:Hl2; [done|].
    intros _. split; [done|].
    intros (_ & prog' & Heq & [Hno|(objs' & g' & Hf' & Hl2' & _)]);
      injection Heq as <-.
    + apply Hnone in Hno. congruence.
    + rewrite Hf in Hf'. injection Hf' as <-. by rewrite Hl2 in Hl2'.
Qed.

(** X16 on the package without exported objects, with a loader that
    returns a program without packages for a load of no package. *)
Lemma X16_witness :
  let ws := Workspace.noExports false in
  let tk := Workspace.toolkit ws in
  let conf := configOf (Workspace.flagsFor "" false) in
  (∀ possible gprog, fullLoad tk conf = Some (possible, gprog) →
                     filesResolve gprog) ∧
  ((runMain tk conf (Workspace.start ws)).2 = Panicked ↔
   importPath conf ≠ "" ∧
   ∃ prog, loader_Load tk {[ importPath conf ]} = inl prog ∧
     ((∀ e, e ∈ AllPackages prog → pkg_Path e.1 ≠ importPath conf) ∨
      ∃ objs gprog,
        findExportedObjects tk prog (importPath conf) = Some objs ∧
        loader_Load tk (possiblePackages tk objs) = inl gprog ∧
        ∀ e, e ∈ AllPackages gprog → pkg_Path e.1 ≠ importPath conf)).
Proof.
  assert (∀ possible gprog,
            fullLoad (Workspace.toolkit (Workspace.noExports false))
              (configOf (Workspace.flagsFor "" false)) = Some (possible, gprog) →
            filesResolve gprog) as Hres.
  { intros possible gprog H. vm_compute in H. injection H as _ Hg. subst gprog.
    unfold filesResolve. simpl. constructor. }
  split; [exact Hres|].
  exact (X16_run_panics_iff_target_not_loaded _ _
           (Workspace.start (Workspace.noExports false)) Hres).
Defined.

(** C7 as it is worded fails twice.  With the external test package
    [a_test], which is loaded but not imported, the summary reports one
    occurrence while two sites of the loaded packages are bound to
    [Foo].  With the embedded field of [S], the identifier is a use
    site of the type [T], which is not in the plan, and its text
    changes from [T] to [t] because it is also the definition site of
    the planned field. *)
Lemma C7_counterexample :
  (let tk := Variants.externalTest in
   let conf := configOf (Workspace.flagsFor "" false) in
   let gprog := Variants.withExternalTest in
   let plan := renamePlan tk gprog (importPath conf) in
   let r := runMain tk conf (mkWorld ∅ []) in
   fullLoad tk conf = Some ({[ "a" ]}, gprog) ∧ r.2 = Success ∧
   ¬ ∃ nfiles npkgs,
       last (w_out r.1) =
       Some (LogLine (summary (length (filter (planned plan) (allSites gprog)))
                              nfiles npkgs))) ∧
  (let ws := Variants.embeddedField in
   let tk := Workspace.toolkit ws in
   let conf := configOf (Workspace.flagsFor "" false) in
   let gprog := Workspace.program ws {[ "a" ]} in
   let plan := renamePlan tk gprog (importPath conf) in
   fullLoad tk conf = Some ({[ "a" ]}, gprog) ∧
   (runMain tk conf (Workspace.start ws)).2 = Success ∧
   ¬ ∀ s o, s ∈ sites gprog → s.2 = Some o → o ∉ plan →
            renamedNames tk gprog (importPath conf) !! id_addr s.1 =
            Names gprog !! id_addr s.1).
Proof.
  cbn zeta. split; split_and!; try (vm_compute; reflexivity).
  - intros (nfiles & npkgs & H).
    assert (last (w_out (runMain Variants.externalTest
                           (configOf (Workspace.flagsFor "" false)) (mkWorld ∅ [])).1) =
            Some (LogLine "Unexported 1 occurrence in 1 file in 1 package.")) as Hlast
      by (vm_compute; reflexivity).
    assert (length (filter (planned (renamePlan Variants.externalTest
                                       Variants.withExternalTest
                                       (importPath (configOf (Workspace.flagsFor "" false)))))
                           (allSites Variants.withExternalTest)) = 2) as Hlen
      by (vm_compute; reflexivity).
    rewrite Hlast, Hlen in H. unfold summary in H.
    change (pretty 2) with "2" in H.
    lazy beta iota delta [String.append] in H. congruence.
  - intros H.
    assert ((Variants.idTinS, Some Variants.TypeT) ∈
            sites (Workspace.program Variants.embeddedField {[ "a" ]})) as Hs
      by (refine (bool_decide_unpack _ _); vm_compute; exact I).
    assert (Variants.TypeT ∉
            renamePlan (Workspace.toolkit Variants.embeddedField)
              (Workspace.program Variants.embeddedField {[ "a" ]})
              (importPath (configOf (Workspace.flagsFor "" false)))) as Hout
      by (refine (bool_decide_unpack _ _); vm_compute; exact I).
    specialize (H _ _ Hs eq_refl Hout). vm_compute in H. discriminate H.
Qed.
